(** * Boostly credit ledger: a shallow embedding of [src/services.py]

    The service functions of the ledger ([create_recognition], [endorse],
    [redeem], [leaderboard], [ensure_monthly_reset],
    [run_monthly_reset_for_all_students]) are embedded as computations over
    an explicit database state.  Every table of [src/models.py] is a finite
    map from the integer primary key [id] to the remaining columns of the
    row.  A Python [raise ValueError(...)] is the outcome [Raises]; the
    database that is left behind travels with the outcome, so "nothing
    changed on failure" is a statement to prove and not a property of the
    type. *)

From stdpp Require Import gmap strings list fin_maps sorting.
From Stdlib Require Import ZArith Lia.

Local Open Scope Z_scope.

(** ** Timestamps *)

(** A naive [datetime.datetime]: Python orders them as the tuple
    (year, month, day, hour, minute, second, microsecond). *)
Record datetime : Type := mkDatetime {
  year : Z;
  month : Z;
  day : Z;
  hour : Z;
  minute : Z;
  second : Z;
  microsecond : Z
}.

Definition dt_tuple (d : datetime) : list Z :=
  [year d; month d; day d; hour d; minute d; second d; microsecond d].

Fixpoint lex_ltb (a b : list Z) : bool :=
  match a, b with
  | x :: a', y :: b' => (x <? y) || ((x =? y) && lex_ltb a' b')
  | _, _ => false
  end.

(** [d1 < d2] on datetimes. *)
Definition dt_ltb (d1 d2 : datetime) : bool :=
  lex_ltb (dt_tuple d1) (dt_tuple d2).

(** [d.replace(day=1, hour=0, minute=0, second=0, microsecond=0)] *)
Definition replace_month_start (d : datetime) : datetime :=
  {| year := year d; month := month d; day := 1;
     hour := 0; minute := 0; second := 0; microsecond := 0 |}.

(** ** Rows of [src/models.py] (the primary key is the key of the table) *)

Record Student : Type := mkStudent {
  name : string;
  current_balance : Z;
  credits_received_total : Z;
  monthly_sent_this_month : Z;
  last_credit_reset : option datetime
}.

Record Recognition : Type := mkRecognition {
  sender_id : Z;
  receiver_id : Z;
  credits : Z;
  message : option string;
  recognition_created_at : datetime
}.

Record Endorsement : Type := mkEndorsement {
  recognition_id : Z;
  endorser_id : Z;
  endorsement_created_at : datetime
}.

Record Redemption : Type := mkRedemption {
  redemption_student_id : Z;
  credits_redeemed : Z;
  voucher_value_inr : Z;
  redemption_created_at : datetime
}.

Record MonthlyResetLog : Type := mkMonthlyResetLog {
  log_student_id : Z;
  log_month : Z;
  log_year : Z;
  carried_forward : Z;
  log_created_at : datetime
}.

(** Attribute assignment on a [Student] object. *)
Definition set_current_balance (v : Z) (s : Student) : Student :=
  {| name := name s; current_balance := v;
     credits_received_total := credits_received_total s;
     monthly_sent_this_month := monthly_sent_this_month s;
     last_credit_reset := last_credit_reset s |}.

Definition set_credits_received_total (v : Z) (s : Student) : Student :=
  {| name := name s; current_balance := current_balance s;
     credits_received_total := v;
     monthly_sent_this_month := monthly_sent_this_month s;
     last_credit_reset := last_credit_reset s |}.

Definition set_monthly_sent_this_month (v : Z) (s : Student) : Student :=
  {| name := name s; current_balance := current_balance s;
     credits_received_total := credits_received_total s;
     monthly_sent_this_month := v;
     last_credit_reset := last_credit_reset s |}.

Definition set_last_credit_reset (v : option datetime) (s : Student) : Student :=
  {| name := name s; current_balance := current_balance s;
     credits_received_total := credits_received_total s;
     monthly_sent_this_month := monthly_sent_this_month s;
     last_credit_reset := v |}.

(** ** The database *)

Record Store : Type := mkStore {
  students : gmap Z Student;
  recognitions : gmap Z Recognition;
  endorsements : gmap Z Endorsement;
  redemptions : gmap Z Redemption;
  monthly_reset_logs : gmap Z MonthlyResetLog
}.

Definition with_students (f : gmap Z Student → gmap Z Student) (db : Store) : Store :=
  {| students := f (students db); recognitions := recognitions db;
     endorsements := endorsements db; redemptions := redemptions db;
     monthly_reset_logs := monthly_reset_logs db |}.

Definition with_recognitions (f : gmap Z Recognition → gmap Z Recognition) (db : Store) : Store :=
  {| students := students db; recognitions := f (recognitions db);
     endorsements := endorsements db; redemptions := redemptions db;
     monthly_reset_logs := monthly_reset_logs db |}.

Definition with_endorsements (f : gmap Z Endorsement → gmap Z Endorsement) (db : Store) : Store :=
  {| students := students db; recognitions := recognitions db;
     endorsements := f (endorsements db); redemptions := redemptions db;
     monthly_reset_logs := monthly_reset_logs db |}.

Definition with_redemptions (f : gmap Z Redemption → gmap Z Redemption) (db : Store) : Store :=
  {| students := students db; recognitions := recognitions db;
     endorsements := endorsements db; redemptions := f (redemptions db);
     monthly_reset_logs := monthly_reset_logs db |}.

Definition with_monthly_reset_logs (f : gmap Z MonthlyResetLog → gmap Z MonthlyResetLog) (db : Store) : Store :=
  {| students := students db; recognitions := recognitions db;
     endorsements := endorsements db; redemptions := redemptions db;
     monthly_reset_logs := f (monthly_reset_logs db) |}.

(** The key an [INTEGER PRIMARY KEY] column receives on insert: one more
    than the largest key in use, 1 in an empty table. *)
Definition max_key {V : Type} (t : gmap Z V) : Z :=
  foldr Z.max 0 (map fst (map_to_list t)).

Definition next_id {V : Type} (t : gmap Z V) : Z := max_key t + 1.

(** ** Failures

    Every failure the service layer raises itself is a [ValueError]; the
    failures differ by their message.  One constructor stands for one message
    template of [src/services.py], its arguments are the values the f-string
    interpolates.  The last two constructors are not [ValueError]s: the
    ORM's error for an object whose row no longer exists, and a failure of
    the database itself. *)
Inductive failure : Type :=
  | StudentNotFound (student_id : Z)
      (* "Student with id {id} not found" *)
  | SelfTransfer
      (* "A student cannot send credits to themselves" *)
  | InsufficientBalance (balance attempted : Z)
      (* "Insufficient balance. Current balance: ..., attempted to send: ..." *)
  | MonthlyLimitExceeded (already_sent attempted : Z)
      (* "Monthly limit exceeded. Already sent this month: ..." *)
  | RecognitionNotFound (recognition_id : Z)
      (* "Recognition with id {id} not found" *)
  | EndorserNotFound (endorser_id : Z)
      (* "Endorser with id {id} not found" *)
  | DuplicateEndorsement
      (* "This student has already endorsed this recognition" *)
  | InvalidAmount
      (* "credits_to_redeem must be greater than 0" *)
  | InsufficientCredits (balance attempted : Z)
      (* "Insufficient credits. Current balance: ..., attempted to redeem: ..." *)
  | ObjectDeleted (student_id : Z)
      (* attribute access on an object whose row is gone *)
  | StoreFailure
      (* an error of the database raised by [db.session.commit()] *).

Inductive outcome (A : Type) : Type :=
  | Returns (a : A)
  | Raises (e : failure).
Arguments Returns {A} a.
Arguments Raises {A} e.

(** ** Computations over the database *)

Definition M (A : Type) : Type := Store → Store * outcome A.

Definition ret {A : Type} (a : A) : M A := λ db, (db, Returns a).

Definition raise {A : Type} (e : failure) : M A := λ db, (db, Raises e).

Definition bind {A B : Type} (c : M A) (k : A → M B) : M B :=
  λ db, match c db with
        | (db', Returns a) => k a db'
        | (db', Raises e) => (db', Raises e)
        end.

Notation "'let*' x ':=' c 'in' k" := (bind c (λ x, k))
  (at level 10, x name, c at level 100, k at level 200).
Notation "c ';;' k" := (bind c (λ _, k))
  (at level 100, k at level 200, right associativity).

Definition read {A : Type} (f : Store → A) : M A := λ db, (db, Returns (f db)).

Definition write (f : Store → Store) : M unit := λ db, (f db, Returns tt).

(** [Student.query.get(id)] *)
Definition Student_query_get (id : Z) : M (option Student) :=
  read (λ db, students db !! id).

(** [Recognition.query.get(id)] *)
Definition Recognition_query_get (id : Z) : M (option Recognition) :=
  read (λ db, recognitions db !! id).

(** Assignment to an attribute of the student object with key [id]: the
    object is the row, so the assignment acts on the table. *)
Definition student_assign (id : Z) (f : Student → Student) : M unit :=
  write (with_students (alter f id)).

(** [db.session.add(row); db.session.commit()] for each table: the row
    receives its key on the commit. *)
Definition add_recognition (r : Recognition) : M Z :=
  λ db, let id := next_id (recognitions db) in
        (with_recognitions (insert id r) db, Returns id).

Definition add_endorsement (e : Endorsement) : M Z :=
  λ db, let id := next_id (endorsements db) in
        (with_endorsements (insert id e) db, Returns id).

Definition add_redemption (r : Redemption) : M Z :=
  λ db, let id := next_id (redemptions db) in
        (with_redemptions (insert id r) db, Returns id).

Definition add_monthly_reset_log (l : MonthlyResetLog) : M Z :=
  λ db, let id := next_id (monthly_reset_logs db) in
        (with_monthly_reset_logs (insert id l) db, Returns id).

(** ** [create_recognition]

    [now] is the value [datetime.utcnow()] returns inside the call. *)
Definition create_recognition (now : datetime)
    (sender_id receiver_id credits : Z) (message : option string)
    : M (Z * Recognition) :=
  let* sender := Student_query_get sender_id in
  match sender with
  | None => raise (StudentNotFound sender_id)
  | Some sender =>
  let* receiver := Student_query_get receiver_id in
  match receiver with
  | None => raise (StudentNotFound receiver_id)
  | Some receiver =>
  if bool_decide (sender_id = receiver_id) then raise SelfTransfer
  else if credits >? current_balance sender then
    raise (InsufficientBalance (current_balance sender) credits)
  else if monthly_sent_this_month sender + credits >? 100 then
    raise (MonthlyLimitExceeded (monthly_sent_this_month sender) credits)
  else
    student_assign sender_id
      (λ s, set_current_balance (current_balance s - credits) s);;
    student_assign sender_id
      (λ s, set_monthly_sent_this_month (monthly_sent_this_month s + credits) s);;
    student_assign receiver_id
      (λ s, set_current_balance (current_balance s + credits) s);;
    student_assign receiver_id
      (λ s, set_credits_received_total (credits_received_total s + credits) s);;
    let recognition :=
      {| sender_id := sender_id; receiver_id := receiver_id;
         credits := credits; message := message;
         recognition_created_at := now |} in
    let* id := add_recognition recognition in
    ret (id, recognition)
  end
  end.

(** ** [endorse] *)

(** [Endorsement.query.filter_by(recognition_id=..., endorser_id=...).first()] *)
Definition Endorsement_query_filter_by_first (rid eid : Z)
    : M (option (Z * Endorsement)) :=
  read (λ db,
    head (filter (λ kv : Z * Endorsement,
                    recognition_id kv.2 = rid ∧ endorser_id kv.2 = eid)
                 (map_to_list (endorsements db)))).

Definition endorse (now : datetime) (recognition_id endorser_id : Z)
    : M (Z * Endorsement) :=
  let* recognition := Recognition_query_get recognition_id in
  match recognition with
  | None => raise (RecognitionNotFound recognition_id)
  | Some _ =>
  let* endorser := Student_query_get endorser_id in
  match endorser with
  | None => raise (EndorserNotFound endorser_id)
  | Some _ =>
  let* existing_endorsement :=
    Endorsement_query_filter_by_first recognition_id endorser_id in
  match existing_endorsement with
  | Some _ => raise DuplicateEndorsement
  | None =>
    let endorsement :=
      {| recognition_id := recognition_id; endorser_id := endorser_id;
         endorsement_created_at := now |} in
    let* id := add_endorsement endorsement in
    ret (id, endorsement)
  end
  end
  end.

(** ** [redeem] *)

Definition redeem (now : datetime) (student_id credits_to_redeem : Z)
    : M (Z * Redemption) :=
  let* student := Student_query_get student_id in
  match student with
  | None => raise (StudentNotFound student_id)
  | Some student =>
  if credits_to_redeem <=? 0 then raise InvalidAmount
  else if current_balance student <? credits_to_redeem then
    raise (InsufficientCredits (current_balance student) credits_to_redeem)
  else
    let voucher_value_inr := credits_to_redeem * 5 in
    student_assign student_id
      (λ s, set_current_balance (current_balance s - credits_to_redeem) s);;
    let redemption :=
      {| redemption_student_id := student_id;
         credits_redeemed := credits_to_redeem;
         voucher_value_inr := voucher_value_inr;
         redemption_created_at := now |} in
    let* id := add_redemption redemption in
    ret (id, redemption)
  end.

(** ** [ensure_monthly_reset]

    The argument of the Python function is a [Student] object attached to
    the session; it is passed here as the key of its row, and its
    attributes are read from the table. *)

Definition needs_reset (now : datetime) (s : Student) : bool :=
  let current_month := replace_month_start now in
  match last_credit_reset s with
  | None => true
  | Some last =>
      let last_reset_month := replace_month_start last in
      dt_ltb last_reset_month current_month
  end.

Definition ensure_monthly_reset (now : datetime) (student : Z) : M bool :=
  let* row := Student_query_get student in
  match row with
  | None => raise (ObjectDeleted student)
  | Some s =>
  if negb (needs_reset now s) then ret false
  else
    let carry_forward := Z.min 50 (current_balance s) in
    student_assign student (set_current_balance (100 + carry_forward));;
    student_assign student (set_monthly_sent_this_month 0);;
    student_assign student (set_last_credit_reset (Some now));;
    let reset_log :=
      {| log_student_id := student; log_month := month now;
         log_year := year now; carried_forward := carry_forward;
         log_created_at := now |} in
    add_monthly_reset_log reset_log;;
    ret true
  end.

(** ** [run_monthly_reset_for_all_students]

    The loop [for student in students: if f(student): reset_count += 1],
    for any per-student routine [step] over any state; the [i]-th iteration
    is told its position.  There is no handler around the call: a failure
    of [step] leaves the loop at once. *)
Section ResetLoop.
Context {State : Type}.
Variable step : nat → Z → State → State * outcome bool.

Fixpoint reset_loop (i : nat) (todo : list Z) (reset_count : Z) (st : State)
    : State * outcome Z :=
  match todo with
  | [] => (st, Returns reset_count)
  | student :: rest =>
      match step i student st with
      | (st', Returns performed) =>
          reset_loop (S i) rest
            (if performed : bool then reset_count + 1 else reset_count) st'
      | (st', Raises e) => (st', Raises e)
      end
  end.
End ResetLoop.

(** The keys of the students table in the order of a table scan, which is
    the order of the integer primary key. *)
Definition student_ids (db : Store) : list Z :=
  merge_sort Z.le (map_to_list (students db)).*1.

(** [Student.query.all()]: the objects of all rows, by ascending [id]. *)
Definition Student_query_all : M (list Z) := read student_ids.

(** Each call of [ensure_monthly_reset] reads the clock itself: [clock i] is
    the value of [datetime.utcnow()] in the call for the [i]-th student. *)
Definition run_monthly_reset_for_all_students (clock : nat → datetime) : M Z :=
  let* students := Student_query_all in
  reset_loop (λ i, ensure_monthly_reset (clock i)) 0 students 0.

(** *** The same two functions with the commit made explicit

    A session holds the database as committed and its own view of it, in
    which the changes not yet committed are visible. *)
Record Session : Type := mkSession {
  committed : Store;
  view : Store
}.

(** A session without uncommitted changes. *)
Definition clean (db : Store) : Session := {| committed := db; view := db |}.

(** [db.session.commit()]: when the database accepts the transaction the
    view becomes the committed database; when it does not, the session rolls
    the uncommitted changes back and the error is raised. *)
Definition session_commit (commit_ok : bool) (ss : Session)
    : Session * outcome unit :=
  if commit_ok then (clean (view ss), Returns tt)
  else (clean (committed ss), Raises StoreFailure).

(** [ensure_monthly_reset] on a session; [commit_ok] tells whether the
    database accepts the commit of this call. *)
Definition ensure_monthly_reset_in_session (commit_ok : bool) (now : datetime)
    (student : Z) (ss : Session) : Session * outcome bool :=
  match students (view ss) !! student with
  | None => (ss, Raises (ObjectDeleted student))
  | Some s =>
  if negb (needs_reset now s) then (ss, Returns false)
  else
    let carry_forward := Z.min 50 (current_balance s) in
    let v1 := with_students
                (alter (set_current_balance (100 + carry_forward)) student)
                (view ss) in
    let v2 := with_students (alter (set_monthly_sent_this_month 0) student) v1 in
    let v3 := with_students
                (alter (set_last_credit_reset (Some now)) student) v2 in
    let reset_log :=
      {| log_student_id := student; log_month := month now;
         log_year := year now; carried_forward := carry_forward;
         log_created_at := now |} in
    let v4 := with_monthly_reset_logs
                (insert (next_id (monthly_reset_logs v3)) reset_log) v3 in
    match session_commit commit_ok {| committed := committed ss; view := v4 |} with
    | (ss', Returns _) => (ss', Returns true)
    | (ss', Raises e) => (ss', Raises e)
    end
  end.

(** [run_monthly_reset_for_all_students] on a session: [commit_ok i] tells
    whether the database accepts the commit in the call for the [i]-th
    student. *)
Definition run_monthly_reset_in_session (commit_ok : nat → bool)
    (clock : nat → datetime) (ss : Session) : Session * outcome Z :=
  let students := student_ids (view ss) in
  reset_loop
    (λ i, ensure_monthly_reset_in_session (commit_ok i) (clock i))
    0 students 0 ss.

(** ** [leaderboard] *)

Record LeaderboardEntry : Type := mkLeaderboardEntry {
  lb_student_id : Z;
  lb_name : string;
  lb_credits_received_total : Z;
  recognition_count : Z;
  endorsement_count : Z
}.

(** The rows that the two outer joins produce for the student [sid]: the
    pair ([Recognition.id], [Endorsement.id]) of each, [None] for NULL. *)
Definition join_rows (db : Store) (sid : Z) : list (option Z * option Z) :=
  let rs := filter (λ kr : Z * Recognition, receiver_id kr.2 = sid)
                   (map_to_list (recognitions db)) in
  match rs with
  | [] => [(None, None)]
  | _ =>
      rs ≫= (λ kr,
        let es := filter (λ ke : Z * Endorsement, recognition_id ke.2 = kr.1)
                         (map_to_list (endorsements db)) in
        match es with
        | [] => [(Some kr.1, None)]
        | _ => (λ ke : Z * Endorsement, (Some kr.1, Some ke.1)) <$> es
        end)
  end.

(** [func.count(col.distinct())]: the distinct non-NULL values. *)
Definition count_distinct (col : list (option Z)) : Z :=
  Z.of_nat (length (remove_dups (omap (λ v, v) col))).

(** Python's [x or 0] on an integer. *)
Definition or_zero (x : Z) : Z := if x =? 0 then 0 else x.

(** One group per student: [Student.id] is the primary key, so grouping by
    (id, name, credits_received_total) groups the join rows by student. *)
Definition leaderboard_row (db : Store) (ks : Z * Student) : LeaderboardEntry :=
  let rows := join_rows db ks.1 in
  {| lb_student_id := ks.1;
     lb_name := name ks.2;
     lb_credits_received_total := credits_received_total ks.2;
     recognition_count := count_distinct (rows.*1);
     endorsement_count := count_distinct (rows.*2) |}.

(** [ORDER BY credits_received_total DESC, id ASC] *)
Definition ranks_before (a b : LeaderboardEntry) : Prop :=
  lb_credits_received_total b < lb_credits_received_total a
  ∨ (lb_credits_received_total a = lb_credits_received_total b
     ∧ lb_student_id a ≤ lb_student_id b).

Global Instance ranks_before_dec a b : Decision (ranks_before a b).
Proof. unfold ranks_before. apply _. Defined.

(** [LIMIT n]: SQLite reads a negative limit as no limit. *)
Definition sql_limit {A : Type} (n : Z) (l : list A) : list A :=
  if n <? 0 then l else take (Z.to_nat n) l.

Definition to_dict (e : LeaderboardEntry) : LeaderboardEntry :=
  {| lb_student_id := lb_student_id e;
     lb_name := lb_name e;
     lb_credits_received_total := lb_credits_received_total e;
     recognition_count := or_zero (recognition_count e);
     endorsement_count := or_zero (endorsement_count e) |}.

Definition leaderboard (limit : Z) : M (list LeaderboardEntry) :=
  read (λ db,
    let results :=
      sql_limit limit
        (merge_sort ranks_before
           (leaderboard_row db <$> map_to_list (students db))) in
    to_dict <$> results).

(** ** The HTTP boundary of [create_recognition] ([src/app.py])

    The part of [create_recognition_endpoint] after the body has been parsed
    and [credits] converted with [int(...)]: the status code of the
    response, and the recognition on success. *)
Definition create_recognition_endpoint (now : datetime)
    (sender_id receiver_id credits : Z) (message : option string)
    : Store → Store * (Z * option (Z * Recognition)) :=
  λ db,
    if credits <=? 0 then (db, (400, None))
    else
      match create_recognition now sender_id receiver_id credits message db with
      | (db', Returns r) => (db', (201, Some r))
      | (db', Raises _) => (db', (400, None))
      end.

(** ** Sample data *)

Definition t0 : datetime := mkDatetime 2024 3 15 10 30 0 0.

Definition new_student (n : string) : Student :=
  {| name := n; current_balance := 100; credits_received_total := 0;
     monthly_sent_this_month := 0; last_credit_reset := None |}.

Definition empty_store : Store :=
  {| students := ∅; recognitions := ∅; endorsements := ∅; redemptions := ∅;
     monthly_reset_logs := ∅ |}.

(** Students A (key 1) and B (key 2), each with the initial balance. *)
Definition two_students : Store :=
  with_students (λ _, <[1 := new_student "A"]> (<[2 := new_student "B"]> ∅))
    empty_store.

(** ** Definitions used in the statements *)

(** The students table after a successful transfer of [credits] from
    [sender_id] to [receiver_id]. *)
Definition transferred (sender_id receiver_id credits : Z)
    (t : gmap Z Student) : gmap Z Student :=
  alter (λ s, set_credits_received_total (credits_received_total s + credits) s)
    receiver_id
    (alter (λ s, set_current_balance (current_balance s + credits) s)
       receiver_id
       (alter (λ s, set_monthly_sent_this_month
                      (monthly_sent_this_month s + credits) s)
          sender_id
          (alter (λ s, set_current_balance (current_balance s - credits) s)
             sender_id t))).

(** Some endorsement of recognition [rid] by student [eid] is stored. *)
Definition endorsed_by (db : Store) (rid eid : Z) : Prop :=
  ∃ k e, endorsements db !! k = Some e
         ∧ recognition_id e = rid ∧ endorser_id e = eid.

(** The uniqueness constraint [unique_recognition_endorser]. *)
Definition unique_endorsements (db : Store) : Prop :=
  ∀ k1 k2 e1 e2,
    endorsements db !! k1 = Some e1 →
    endorsements db !! k2 = Some e2 →
    recognition_id e1 = recognition_id e2 →
    endorser_id e1 = endorser_id e2 →
    k1 = k2.

(** [last] lies in a calendar month before the month of [now]. *)
Definition earlier_month (last now : datetime) : Prop :=
  year last < year now ∨ (year last = year now ∧ month last < month now).

(** The row of a student after [ensure_monthly_reset] has run at [now]. *)
Definition reset_row (now : datetime) (s : Student) : Student :=
  if needs_reset now s then
    mkStudent (name s) (100 + Z.min 50 (current_balance s))
      (credits_received_total s) 0 (Some now)
  else s.

Definition reset_log_of (now : datetime) (student : Z) (s : Student)
    : MonthlyResetLog :=
  mkMonthlyResetLog student (month now) (year now)
    (Z.min 50 (current_balance s)) now.

(** A student with balance 80 whose last reset was on 31 January 2024. *)
Definition carol : Student :=
  mkStudent "C" 80 40 20 (Some (mkDatetime 2024 1 31 23 59 59 0)).

Definition one_student : Store :=
  with_students (λ _, {[ 7 := carol ]}) empty_store.

(** The number of students of [todo] that need a reset when the student at
    position [j] of [todo] is examined at time [clock (i + j)]. *)
Fixpoint resets_due (clock : nat → datetime) (t : gmap Z Student)
    (i : nat) (todo : list Z) : Z :=
  match todo with
  | [] => 0
  | student :: rest =>
      (match t !! student with
       | Some s => if needs_reset (clock i) s then 1 else 0
       | None => 0
       end) + resets_due clock t (S i) rest
  end.

(** The calls a client of the service layer can make. *)
Inductive operation : Type :=
  | CreateRecognition (now : datetime) (sender_id receiver_id credits : Z)
      (message : option string)
  | Endorse (now : datetime) (recognition_id endorser_id : Z)
  | Redeem (now : datetime) (student_id credits_to_redeem : Z)
  | EnsureMonthlyReset (now : datetime) (student : Z)
  | RunMonthlyResetForAllStudents (clock : nat → datetime).

(** The database after a call, whether it returned or raised. *)
Definition commit (op : operation) (db : Store) : Store :=
  match op with
  | CreateRecognition now sender_id receiver_id credits message =>
      (create_recognition now sender_id receiver_id credits message db).1
  | Endorse now recognition_id endorser_id =>
      (endorse now recognition_id endorser_id db).1
  | Redeem now student_id credits_to_redeem =>
      (redeem now student_id credits_to_redeem db).1
  | EnsureMonthlyReset now student => (ensure_monthly_reset now student db).1
  | RunMonthlyResetForAllStudents clock =>
      (run_monthly_reset_for_all_students clock db).1
  end.

Definition commit_all (ops : list operation) (db : Store) : Store :=
  foldl (λ d op, commit op d) db ops.

(** The credit amount handed to an operation is a positive integer. *)
Definition positive_amount (op : operation) : Prop :=
  match op with
  | CreateRecognition _ _ _ credits _ => 0 < credits
  | Redeem _ _ credits_to_redeem => 0 < credits_to_redeem
  | _ => True
  end.

Definition balances_nonneg (db : Store) : Prop :=
  ∀ sid s, students db !! sid = Some s → 0 ≤ current_balance s.

(** The recognitions whose receiver is the student [sid]. *)
Definition recognitions_received (db : Store) (sid : Z) : gmap Z Recognition :=
  filter (λ kr : Z * Recognition, receiver_id kr.2 = sid) (recognitions db).

(** The endorsements of a recognition whose receiver is the student [sid]. *)
Definition endorsements_received (db : Store) (sid : Z) : gmap Z Endorsement :=
  filter (λ ke : Z * Endorsement,
            receiver_id <$> recognitions db !! recognition_id ke.2 = Some sid)
         (endorsements db).

(** The leaderboard entry of a student as the specification words it. *)
Definition leaderboard_entry (db : Store) (ks : Z * Student) : LeaderboardEntry :=
  {| lb_student_id := ks.1;
     lb_name := name ks.2;
     lb_credits_received_total := credits_received_total ks.2;
     recognition_count := Z.of_nat (size (recognitions_received db ks.1));
     endorsement_count := Z.of_nat (size (endorsements_received db ks.1)) |}.

(** The two columns the ranking looks at. *)
Definition rank_key (e : LeaderboardEntry) : Z * Z :=
  (lb_credits_received_total e, lb_student_id e).

Definition key_before (p q : Z * Z) : Prop :=
  q.1 < p.1 ∨ (p.1 = q.1 ∧ p.2 ≤ q.2).

(** The database at the end of the end-to-end scenario: A has sent 30 to B
    and B has redeemed 50. *)
Definition scenario_store : Store :=
  commit_all
    [CreateRecognition t0 1 2 30 (Some "thanks"); Redeem t0 2 50]
    two_students.

(** A sender (key 1) with balance 150 who has sent 80 this month, and a
    receiver (key 2). *)
Definition busy_sender : Store :=
  with_students
    (λ _, <[1 := mkStudent "A" 150 0 80 (Some t0)]> (<[2 := new_student "B"]> ∅))
    empty_store.

(** ** The committed changes

    The four changes of the database that the service layer commits, each
    with the conditions under which the code reaches its [commit()].  [ok]
    is what is known about the amount of a transfer. *)
Inductive transition (ok : Z → Prop) (db : Store) : Store → Prop :=
  | transition_transfer now sender_id receiver_id credits message s r :
      students db !! sender_id = Some s →
      students db !! receiver_id = Some r →
      sender_id ≠ receiver_id →
      credits ≤ current_balance s →
      monthly_sent_this_month s + credits ≤ 100 →
      ok credits →
      transition ok db
        (with_recognitions
           (insert (next_id (recognitions db))
              (mkRecognition sender_id receiver_id credits message now))
           (with_students (transferred sender_id receiver_id credits) db))
  | transition_endorse now rid eid rec st :
      recognitions db !! rid = Some rec →
      students db !! eid = Some st →
      ¬ endorsed_by db rid eid →
      transition ok db
        (with_endorsements
           (insert (next_id (endorsements db)) (mkEndorsement rid eid now)) db)
  | transition_redeem now student_id credits_to_redeem s :
      students db !! student_id = Some s →
      0 < credits_to_redeem →
      credits_to_redeem ≤ current_balance s →
      transition ok db
        (with_redemptions
           (insert (next_id (redemptions db))
              (mkRedemption student_id credits_to_redeem
                 (credits_to_redeem * 5) now))
           (with_students
              (alter (λ s, set_current_balance
                             (current_balance s - credits_to_redeem) s)
                 student_id) db))
  | transition_reset now student s :
      students db !! student = Some s →
      needs_reset now s = true →
      transition ok db
        (with_monthly_reset_logs
           (insert (next_id (monthly_reset_logs db))
              (reset_log_of now student s))
           (with_students (insert student (reset_row now s)) db)).

(** What a caller promises about the amount of a transfer. *)
Definition amount_ok (ok : Z → Prop) (op : operation) : Prop :=
  match op with
  | CreateRecognition _ _ _ credits _ => ok credits
  | _ => True
  end.

Definition any_amount : Z → Prop := λ _, True.
Definition positive : Z → Prop := λ c, 0 < c.

(** ** Invariants of the database *)

Definition Zsum (l : list Z) : Z := foldr Z.add 0 l.

(** The sum of all balances. *)
Definition total_balance (db : Store) : Z :=
  Zsum ((λ ks : Z * Student, current_balance ks.2) <$> map_to_list (students db)).

(** The credits of all recognitions the student [sid] has received. *)
Definition received_sum (db : Store) (sid : Z) : Z :=
  Zsum ((λ kr : Z * Recognition, credits kr.2) <$>
          map_to_list (recognitions_received db sid)).

Definition totals_match (db : Store) : Prop :=
  ∀ sid s, students db !! sid = Some s →
    credits_received_total s = received_sum db sid.

Definition monthly_within_limit (db : Store) : Prop :=
  ∀ sid s, students db !! sid = Some s → monthly_sent_this_month s ≤ 100.

Definition monthly_nonneg (db : Store) : Prop :=
  ∀ sid s, students db !! sid = Some s → 0 ≤ monthly_sent_this_month s.

(** Every row points to rows that exist, and no recognition is from a
    student to the same student. *)
Definition references_valid (db : Store) : Prop :=
  (∀ k r, recognitions db !! k = Some r →
     is_Some (students db !! sender_id r)
     ∧ is_Some (students db !! receiver_id r)
     ∧ sender_id r ≠ receiver_id r)
  ∧ (∀ k e, endorsements db !! k = Some e →
       is_Some (recognitions db !! recognition_id e)
       ∧ is_Some (students db !! endorser_id e))
  ∧ (∀ k r, redemptions db !! k = Some r →
       is_Some (students db !! redemption_student_id r))
  ∧ (∀ k l, monthly_reset_logs db !! k = Some l →
       is_Some (students db !! log_student_id l)).

Definition redemptions_wellformed (db : Store) : Prop :=
  ∀ k r, redemptions db !! k = Some r →
    0 < credits_redeemed r ∧ voucher_value_inr r = 5 * credits_redeemed r.

(** (year, month) of [l] is not after (year, month) of [d]. *)
Definition log_not_after (l : MonthlyResetLog) (d : datetime) : Prop :=
  log_year l < year d ∨ (log_year l = year d ∧ log_month l ≤ month d).

(** The reset logs are consistent with the students: a log of a student is
    not later than the student's last reset, carries at most 50, and no two
    logs are for the same student and calendar month. *)
Definition reset_logs_consistent (db : Store) : Prop :=
  (∀ k l, monthly_reset_logs db !! k = Some l →
     carried_forward l ≤ 50
     ∧ ∃ s last, students db !! log_student_id l = Some s
                 ∧ last_credit_reset s = Some last
                 ∧ log_not_after l last)
  ∧ (∀ k1 k2 l1 l2,
       monthly_reset_logs db !! k1 = Some l1 →
       monthly_reset_logs db !! k2 = Some l2 →
       log_student_id l1 = log_student_id l2 →
       log_year l1 = log_year l2 →
       log_month l1 = log_month l2 →
       k1 = k2).

(** [db'] keeps every row of the four record tables of [db] as it is, has
    the same students, and every student keeps the name. *)
Definition extends (db db' : Store) : Prop :=
  (∀ k r, recognitions db !! k = Some r → recognitions db' !! k = Some r)
  ∧ (∀ k e, endorsements db !! k = Some e → endorsements db' !! k = Some e)
  ∧ (∀ k r, redemptions db !! k = Some r → redemptions db' !! k = Some r)
  ∧ (∀ k l, monthly_reset_logs db !! k = Some l →
            monthly_reset_logs db' !! k = Some l)
  ∧ (∀ sid, name <$> students db' !! sid = name <$> students db !! sid).

(** The lifetime totals do not shrink. *)
Definition totals_grow (db db' : Store) : Prop :=
  ∀ sid s, students db !! sid = Some s →
    ∃ s', students db' !! sid = Some s'
          ∧ credits_received_total s ≤ credits_received_total s'.

(** ** The other endpoints of [src/app.py]

    As for [create_recognition_endpoint], each is the part of the handler
    after the body has been parsed and the integer fields converted with
    [int(...)]; the result is the database and the status code. *)

(** [redeem_credits] *)
Definition redeem_credits (now : datetime) (student_id credits : Z)
    : Store → Store * (Z * option (Z * Redemption)) :=
  λ db,
    if credits <=? 0 then (db, (400, None))
    else
      match redeem now student_id credits db with
      | (db', Returns r) => (db', (201, Some r))
      | (db', Raises _) => (db', (400, None))
      end.

(** [endorse_recognition] *)
Definition endorse_recognition (now : datetime) (recognition_id endorser_id : Z)
    : Store → Store * (Z * option (Z * Endorsement)) :=
  λ db,
    match endorse now recognition_id endorser_id db with
    | (db', Returns e) => (db', (201, Some e))
    | (db', Raises _) => (db', (400, None))
    end.

(** [get_leaderboard] *)
Definition get_leaderboard (limit : Z)
    : Store → Store * (Z * option (list LeaderboardEntry)) :=
  λ db,
    if limit <=? 0 then (db, (400, None))
    else
      match leaderboard limit db with
      | (db', Returns entries) => (db', (200, Some entries))
      | (db', Raises _) => (db', (500, None))
      end.

(** [run_monthly_reset]: any exception gives status 500. *)
Definition run_monthly_reset (clock : nat → datetime)
    : Store → Store * (Z * option Z) :=
  λ db,
    match run_monthly_reset_for_all_students clock db with
    | (db', Returns reset_count) => (db', (200, Some reset_count))
    | (db', Raises _) => (db', (500, None))
    end.

(** A request to one of the endpoints that reach the service layer. *)
Inductive request : Type :=
  | PostRecognitions (now : datetime) (sender_id receiver_id credits : Z)
      (message : option string)
  | PostEndorse (now : datetime) (recognition_id endorser_id : Z)
  | PostRedeem (now : datetime) (student_id credits : Z)
  | GetLeaderboard (limit : Z)
  | GetRunMonthlyReset (clock : nat → datetime).

(** The database after the request has been served. *)
Definition serve (req : request) (db : Store) : Store :=
  match req with
  | PostRecognitions now sender_id receiver_id credits message =>
      (create_recognition_endpoint now sender_id receiver_id credits message db).1
  | PostEndorse now recognition_id endorser_id =>
      (endorse_recognition now recognition_id endorser_id db).1
  | PostRedeem now student_id credits =>
      (redeem_credits now student_id credits db).1
  | GetLeaderboard limit => (get_leaderboard limit db).1
  | GetRunMonthlyReset clock => (run_monthly_reset clock db).1
  end.

Definition serve_all (reqs : list request) (db : Store) : Store :=
  foldl (λ d req, serve req d) db reqs.

(** * Properties *)


(** ** Fresh keys *)

Section Keys.
Context {V : Type}.
Implicit Types t : gmap Z V.

Lemma max_key_bound t k v : t !! k = Some v → k ≤ max_key t.
Proof.
  intros Hk. apply elem_of_map_to_list in Hk.
  unfold max_key. induction (map_to_list t) as [|[k' v'] l IH]; simpl.
  - by apply elem_of_nil in Hk.
  - apply elem_of_cons in Hk as [Heq | Hin].
    + injection Heq as -> ->. lia.
    + specialize (IH Hin). lia.
Qed.

Lemma next_id_fresh t : t !! next_id t = None.
Proof.
  destruct (t !! next_id t) as [v|] eqn:E; [|done].
  apply max_key_bound in E. unfold next_id in E. lia.
Qed.

Lemma next_id_positive t : 1 ≤ next_id t.
Proof.
  unfold next_id, max_key.
  induction (map_to_list t) as [|[k v] l IH]; simpl; lia.
Qed.
End Keys.

(** ** Sorted lists *)

Lemma StronglySorted_lookup_lt {A : Type} (R : relation A) (l : list A) i j a b :
  StronglySorted R l → (i < j)%nat →
  l !! i = Some a → l !! j = Some b → R a b.
Proof.
  intros Hsorted. revert i j.
  induction Hsorted as [|x l Hl IH Hx]; intros i j Hij Hi Hj.
  - by rewrite lookup_nil in Hi.
  - destruct j as [|j]; [lia|]. simpl in Hj. destruct i as [|i]; simpl in Hi.
    + injection Hi as <-. rewrite Forall_forall in Hx. apply Hx.
      by eapply list_elem_of_lookup_2.
    + apply (IH i j); [lia|done..].
Qed.

(** ** Stepping through a computation *)

Lemma bind_returns {A B : Type} (c : M A) (k : A → M B) db db' a :
  c db = (db', Returns a) → bind c k db = k a db'.
Proof. intros E. unfold bind. by rewrite E. Qed.

Lemma bind_raises {A B : Type} (c : M A) (k : A → M B) db db' e :
  c db = (db', Raises e) → bind c k db = (db', Raises e).
Proof. intros E. unfold bind. by rewrite E. Qed.

Lemma gtb_false_iff (a b : Z) : (a >? b) = false ↔ a ≤ b.
Proof. rewrite Z.gtb_ltb, Z.ltb_ge. done. Qed.

Lemma gtb_true_iff (a b : Z) : (a >? b) = true ↔ b < a.
Proof. rewrite Z.gtb_ltb, Z.ltb_lt. done. Qed.

Ltac step_db :=
  unfold bind, Student_query_get, Recognition_query_get, read, write,
    student_assign, raise, ret, add_recognition, add_endorsement,
    add_redemption, add_monthly_reset_log; simpl.

(** ** [create_recognition] *)

Lemma create_recognition_commits now sender_id receiver_id credits message db s r :
  students db !! sender_id = Some s →
  students db !! receiver_id = Some r →
  sender_id ≠ receiver_id →
  credits ≤ current_balance s →
  monthly_sent_this_month s + credits ≤ 100 →
  create_recognition now sender_id receiver_id credits message db =
    (with_recognitions
       (insert (next_id (recognitions db))
               (mkRecognition sender_id receiver_id credits message now))
       (with_students (transferred sender_id receiver_id credits) db),
     Returns (next_id (recognitions db),
              mkRecognition sender_id receiver_id credits message now)).
Proof.
  intros Hs Hr Hne Hbal Hmon.
  unfold create_recognition. step_db. rewrite Hs, Hr.
  rewrite bool_decide_eq_false_2 by done.
  apply gtb_false_iff in Hbal, Hmon. rewrite Hbal, Hmon. done.
Qed.

Lemma transferred_sender sender_id receiver_id credits t s :
  sender_id ≠ receiver_id →
  t !! sender_id = Some s →
  transferred sender_id receiver_id credits t !! sender_id =
    Some (mkStudent (name s) (current_balance s - credits)
            (credits_received_total s)
            (monthly_sent_this_month s + credits) (last_credit_reset s)).
Proof.
  intros Hne Hs. unfold transferred.
  rewrite !lookup_alter_ne by done. rewrite !lookup_alter_eq, Hs. done.
Qed.

Lemma transferred_receiver sender_id receiver_id credits t r :
  sender_id ≠ receiver_id →
  t !! receiver_id = Some r →
  transferred sender_id receiver_id credits t !! receiver_id =
    Some (mkStudent (name r) (current_balance r + credits)
            (credits_received_total r + credits)
            (monthly_sent_this_month r) (last_credit_reset r)).
Proof.
  intros Hne Hr. unfold transferred.
  rewrite !lookup_alter_eq. rewrite !lookup_alter_ne by done. rewrite Hr. done.
Qed.

Lemma transferred_other sender_id receiver_id credits t k :
  k ≠ sender_id → k ≠ receiver_id →
  transferred sender_id receiver_id credits t !! k = t !! k.
Proof.
  intros H1 H2. unfold transferred. by rewrite !lookup_alter_ne.
Qed.

(** C1: when the five preconditions hold, [create_recognition] returns the
    new recognition (sender, receiver, credits, message, timestamp), which
    is the one row added to the recognitions table; the sender's balance
    goes down and the sender's monthly total goes up by [credits], the
    receiver's balance and lifetime total go up by [credits], every other
    student and table is untouched, and the two balances keep their sum. *)
Theorem create_recognition_success now sender_id receiver_id credits message db s r :
  students db !! sender_id = Some s →
  students db !! receiver_id = Some r →
  sender_id ≠ receiver_id →
  credits ≤ current_balance s →
  monthly_sent_this_month s + credits ≤ 100 →
  ∃ db' id s' r',
    create_recognition now sender_id receiver_id credits message db =
      (db', Returns (id, mkRecognition sender_id receiver_id credits message now))
    ∧ recognitions db !! id = None
    ∧ recognitions db' =
        <[id := mkRecognition sender_id receiver_id credits message now]>
          (recognitions db)
    ∧ students db' !! sender_id = Some s'
    ∧ students db' !! receiver_id = Some r'
    ∧ current_balance s' = current_balance s - credits
    ∧ monthly_sent_this_month s' = monthly_sent_this_month s + credits
    ∧ credits_received_total s' = credits_received_total s
    ∧ current_balance r' = current_balance r + credits
    ∧ credits_received_total r' = credits_received_total r + credits
    ∧ monthly_sent_this_month r' = monthly_sent_this_month r
    ∧ current_balance s' + current_balance r' =
        current_balance s + current_balance r
    ∧ (∀ k, k ≠ sender_id → k ≠ receiver_id →
            students db' !! k = students db !! k)
    ∧ endorsements db' = endorsements db
    ∧ redemptions db' = redemptions db
    ∧ monthly_reset_logs db' = monthly_reset_logs db.
Proof.
  intros Hs Hr Hne Hbal Hmon.
  eexists _, _, _, _. split.
  { by apply (create_recognition_commits _ _ _ _ _ _ s r). }
  simpl. split; [apply next_id_fresh|]. split; [done|].
  split; [by apply transferred_sender|].
  split; [by apply transferred_receiver|].
  simpl. repeat split; try lia.
  intros k H1 H2. by apply transferred_other.
Qed.

Lemma create_recognition_success_witness :
  ∃ db' id s' r',
    create_recognition t0 1 2 30 (Some "thanks") two_students =
      (db', Returns (id, mkRecognition 1 2 30 (Some "thanks") t0))
    ∧ recognitions two_students !! id = None
    ∧ recognitions db' =
        <[id := mkRecognition 1 2 30 (Some "thanks") t0]>
          (recognitions two_students)
    ∧ students db' !! 1 = Some s'
    ∧ students db' !! 2 = Some r'
    ∧ current_balance s' = 100 - 30
    ∧ monthly_sent_this_month s' = 0 + 30
    ∧ credits_received_total s' = 0
    ∧ current_balance r' = 100 + 30
    ∧ credits_received_total r' = 0 + 30
    ∧ monthly_sent_this_month r' = 0
    ∧ current_balance s' + current_balance r' = 100 + 100
    ∧ (∀ k, k ≠ 1 → k ≠ 2 →
            students db' !! k = students two_students !! k)
    ∧ endorsements db' = endorsements two_students
    ∧ redemptions db' = redemptions two_students
    ∧ monthly_reset_logs db' = monthly_reset_logs two_students.
Proof.
  apply (create_recognition_success t0 1 2 30 (Some "thanks") two_students
           (new_student "A") (new_student "B")).
  - reflexivity.
  - reflexivity.
  - lia.
  - simpl. lia.
  - simpl. lia.
Defined.

(** C2: [create_recognition] checks, in this order, that the sender exists,
    that the receiver exists, that the two differ, that [credits] does not
    exceed the sender's balance and that the sender's monthly total plus
    [credits] does not exceed 100.  The first check that fails decides the
    failure, each check has a failure of its own, and a call that fails
    leaves the whole database as it was.  A monthly total that reaches
    exactly 100 is accepted. *)
Theorem create_recognition_checks now sender_id receiver_id credits message db :
  let result := create_recognition now sender_id receiver_id credits message db in
  (students db !! sender_id = None →
     result = (db, Raises (StudentNotFound sender_id)))
  ∧ (is_Some (students db !! sender_id) →
     students db !! receiver_id = None →
     result = (db, Raises (StudentNotFound receiver_id))
     ∧ StudentNotFound receiver_id ≠ StudentNotFound sender_id)
  ∧ (∀ s, students db !! sender_id = Some s →
          is_Some (students db !! receiver_id) →
       (sender_id = receiver_id → result = (db, Raises SelfTransfer))
       ∧ (sender_id ≠ receiver_id → current_balance s < credits →
            result = (db, Raises (InsufficientBalance (current_balance s) credits)))
       ∧ (sender_id ≠ receiver_id → credits ≤ current_balance s →
          100 < monthly_sent_this_month s + credits →
            result = (db, Raises (MonthlyLimitExceeded
                                    (monthly_sent_this_month s) credits)))
       ∧ (sender_id ≠ receiver_id → credits ≤ current_balance s →
          monthly_sent_this_month s + credits = 100 →
            ∃ db' r, result = (db', Returns r)))
  ∧ (∀ db' e, result = (db', Raises e) →
       db' = db
       ∧ e ∈ [StudentNotFound sender_id; StudentNotFound receiver_id;
              SelfTransfer;
              default SelfTransfer
                ((λ s, InsufficientBalance (current_balance s) credits)
                   <$> students db !! sender_id);
              default SelfTransfer
                ((λ s, MonthlyLimitExceeded (monthly_sent_this_month s) credits)
                   <$> students db !! sender_id)]).
Proof.
  intros result. subst result.
  split; [|split; [|split]].
  - intros Hs. unfold create_recognition. step_db. by rewrite Hs.
  - intros [s Hs] Hr. split.
    + unfold create_recognition. step_db. by rewrite Hs, Hr.
    + intros [= Heq]. rewrite Heq, Hs in Hr. done.
  - intros s Hs [r Hr]. repeat split.
    + intros Heq. unfold create_recognition. step_db. rewrite Hs, Hr.
      by rewrite bool_decide_eq_true_2.
    + intros Hne Hlt. unfold create_recognition. step_db. rewrite Hs, Hr.
      rewrite bool_decide_eq_false_2 by done.
      apply gtb_true_iff in Hlt. by rewrite Hlt.
    + intros Hne Hle Hlt. unfold create_recognition. step_db. rewrite Hs, Hr.
      rewrite bool_decide_eq_false_2 by done.
      apply gtb_false_iff in Hle. apply gtb_true_iff in Hlt.
      by rewrite Hle, Hlt.
    + intros Hne Hle Heq. eexists _, _.
      apply (create_recognition_commits _ _ _ _ _ _ s r); [done..|lia].
  - intros db' e. unfold create_recognition. step_db.
    destruct (students db !! sender_id) as [s|]; simpl.
    2:{ intros [= <- <-]. split; [done|]. set_solver. }
    destruct (students db !! receiver_id) as [r|]; simpl.
    2:{ intros [= <- <-]. split; [done|]. set_solver. }
    case_bool_decide.
    { intros [= <- <-]. split; [done|]. set_solver. }
    destruct (credits >? current_balance s).
    { intros [= <- <-]. split; [done|]. set_solver. }
    destruct (monthly_sent_this_month s + credits >? 100).
    { intros [= <- <-]. split; [done|]. set_solver. }
    intros [=].
Qed.

(** Each failure of [create_recognition], and the boundary of the monthly
    limit, on sample data. *)
Example create_recognition_failures :
  create_recognition t0 9 2 10 None busy_sender =
    (busy_sender, Raises (StudentNotFound 9))
  ∧ create_recognition t0 1 9 10 None busy_sender =
      (busy_sender, Raises (StudentNotFound 9))
  ∧ create_recognition t0 9 9 10 None busy_sender =
      (busy_sender, Raises (StudentNotFound 9))
  ∧ create_recognition t0 1 1 500 None busy_sender =
      (busy_sender, Raises SelfTransfer)
  ∧ create_recognition t0 1 2 151 None busy_sender =
      (busy_sender, Raises (InsufficientBalance 150 151))
  ∧ create_recognition t0 1 2 21 None busy_sender =
      (busy_sender, Raises (MonthlyLimitExceeded 80 21))
  ∧ (create_recognition t0 1 2 20 None busy_sender).2 =
      Returns (1, mkRecognition 1 2 20 None t0)
  ∧ students (create_recognition t0 1 2 20 None busy_sender).1 !! 1 =
      Some (mkStudent "A" 130 0 100 (Some t0)).
Proof. repeat split; reflexivity. Qed.

(** ** [redeem] *)

Lemma redeem_commits now student_id credits_to_redeem db s :
  students db !! student_id = Some s →
  0 < credits_to_redeem →
  credits_to_redeem ≤ current_balance s →
  redeem now student_id credits_to_redeem db =
    (with_redemptions
       (insert (next_id (redemptions db))
          (mkRedemption student_id credits_to_redeem (credits_to_redeem * 5) now))
       (with_students
          (alter (λ s, set_current_balance
                         (current_balance s - credits_to_redeem) s)
             student_id) db),
     Returns (next_id (redemptions db),
              mkRedemption student_id credits_to_redeem
                (credits_to_redeem * 5) now)).
Proof.
  intros Hs Hpos Hle. unfold redeem. step_db. rewrite Hs.
  apply Z.leb_gt in Hpos. apply Z.ltb_ge in Hle. by rewrite Hpos, Hle.
Qed.

(** C4: for an existing student and [0 < credits_to_redeem <= balance],
    [redeem] takes exactly [credits_to_redeem] off the balance, leaves the
    lifetime and the monthly totals alone, and returns the one redemption
    row it inserts, whose voucher value is five times the credits (balance
    100 and 10 credits: voucher 50, balance 90).  The failures are, in order,
    student not found, non-positive amount, insufficient balance; a failing
    call changes nothing. *)
Theorem redeem_spec now student_id credits_to_redeem db :
  let result := redeem now student_id credits_to_redeem db in
  (students db !! student_id = None →
     result = (db, Raises (StudentNotFound student_id)))
  ∧ (∀ s, students db !! student_id = Some s →
      (credits_to_redeem ≤ 0 → result = (db, Raises InvalidAmount))
      ∧ (0 < credits_to_redeem → current_balance s < credits_to_redeem →
           result = (db, Raises (InsufficientCredits (current_balance s)
                                   credits_to_redeem)))
      ∧ (0 < credits_to_redeem → credits_to_redeem ≤ current_balance s →
           ∃ db' id s',
             result = (db', Returns (id, mkRedemption student_id
                                           credits_to_redeem
                                           (credits_to_redeem * 5) now))
             ∧ redemptions db !! id = None
             ∧ redemptions db' =
                 <[id := mkRedemption student_id credits_to_redeem
                           (credits_to_redeem * 5) now]> (redemptions db)
             ∧ students db' !! student_id = Some s'
             ∧ current_balance s' = current_balance s - credits_to_redeem
             ∧ credits_received_total s' = credits_received_total s
             ∧ monthly_sent_this_month s' = monthly_sent_this_month s
             ∧ (current_balance s = 100 → credits_to_redeem = 10 →
                  current_balance s' = 90
                  ∧ voucher_value_inr
                      (mkRedemption student_id credits_to_redeem
                         (credits_to_redeem * 5) now) = 50)
             ∧ (∀ k, k ≠ student_id → students db' !! k = students db !! k)
             ∧ recognitions db' = recognitions db
             ∧ endorsements db' = endorsements db
             ∧ monthly_reset_logs db' = monthly_reset_logs db))
  ∧ (∀ db' e, result = (db', Raises e) → db' = db).
Proof.
  intros result. subst result. split; [|split].
  - intros Hs. unfold redeem. step_db. by rewrite Hs.
  - intros s Hs. repeat split.
    + intros Hle. unfold redeem. step_db. rewrite Hs.
      apply Z.leb_le in Hle. by rewrite Hle.
    + intros Hpos Hlt. unfold redeem. step_db. rewrite Hs.
      apply Z.leb_gt in Hpos. apply Z.ltb_lt in Hlt. by rewrite Hpos, Hlt.
    + intros Hpos Hle. eexists _, _, _. split.
      { by apply (redeem_commits _ _ _ _ s). }
      simpl. split; [apply next_id_fresh|]. split; [done|].
      split; [by rewrite lookup_alter_eq, Hs|].
      simpl. repeat split; try lia.
      intros k Hk. by rewrite lookup_alter_ne.
  - intros db' e. unfold redeem. step_db.
    destruct (students db !! student_id) as [s|]; simpl.
    2:{ by intros [= <- <-]. }
    destruct (credits_to_redeem <=? 0); [by intros [= <- <-]|].
    destruct (current_balance s <? credits_to_redeem); [by intros [= <- <-]|].
    intros [=].
Qed.

Example redeem_failures :
  redeem t0 9 10 two_students = (two_students, Raises (StudentNotFound 9))
  ∧ redeem t0 9 0 two_students = (two_students, Raises (StudentNotFound 9))
  ∧ redeem t0 1 0 two_students = (two_students, Raises InvalidAmount)
  ∧ redeem t0 1 (-3) two_students = (two_students, Raises InvalidAmount)
  ∧ redeem t0 1 101 two_students =
      (two_students, Raises (InsufficientCredits 100 101))
  ∧ (redeem t0 1 10 two_students).2 = Returns (1, mkRedemption 1 10 50 t0)
  ∧ students (redeem t0 1 10 two_students).1 !! 1 =
      Some (mkStudent "A" 90 0 0 None).
Proof. repeat split; reflexivity. Qed.

(** The end-to-end scenario of the specification: A sends 30 to B, then B
    redeems 50. *)
Example end_to_end_balances :
  let db1 := (create_recognition t0 1 2 30 (Some "thanks") two_students).1 in
  let db2 := (redeem t0 2 50 db1).1 in
  current_balance <$> students db1 !! 1 = Some 70
  ∧ monthly_sent_this_month <$> students db1 !! 1 = Some 30
  ∧ current_balance <$> students db1 !! 2 = Some 130
  ∧ credits_received_total <$> students db1 !! 2 = Some 30
  ∧ current_balance <$> students db2 !! 2 = Some 80
  ∧ (redeem t0 2 50 db1).2 = Returns (1, mkRedemption 2 50 250 t0).
Proof. vm_compute. done. Qed.

(** ** [endorse] *)

Lemma existing_endorsement_None db rid eid :
  (Endorsement_query_filter_by_first rid eid db).2 = Returns None
  ↔ ¬ endorsed_by db rid eid.
Proof.
  unfold Endorsement_query_filter_by_first, read, endorsed_by. simpl.
  split.
  - intros [= Hhead] (k & e & Hk & Hr & He).
    apply head_None in Hhead.
    assert ((k, e) ∈ filter (λ kv : Z * Endorsement,
                recognition_id kv.2 = rid ∧ endorser_id kv.2 = eid)
              (map_to_list (endorsements db))) as Hin.
    { apply list_elem_of_filter. split; [done|].
      by apply elem_of_map_to_list. }
    rewrite Hhead in Hin. by apply elem_of_nil in Hin.
  - intros Hnone. f_equal.
    destruct (head _) as [[k e]|] eqn:Hhead; [|done].
    exfalso. apply Hnone.
    apply head_Some_elem_of, list_elem_of_filter in Hhead as [[Hr He] Hin].
    apply elem_of_map_to_list in Hin. by exists k, e.
Qed.

Lemma endorse_duplicate now rid eid db rec st :
  recognitions db !! rid = Some rec →
  students db !! eid = Some st →
  endorsed_by db rid eid →
  endorse now rid eid db = (db, Raises DuplicateEndorsement).
Proof.
  intros Hrec Hst Hdup. unfold endorse. step_db. rewrite Hrec, Hst.
  destruct (head _) as [kv|] eqn:Hhead; [done|].
  exfalso. revert Hdup. apply existing_endorsement_None.
  unfold Endorsement_query_filter_by_first, read. simpl. by rewrite Hhead.
Qed.

Lemma endorse_commits now rid eid db rec st :
  recognitions db !! rid = Some rec →
  students db !! eid = Some st →
  ¬ endorsed_by db rid eid →
  endorse now rid eid db =
    (with_endorsements
       (insert (next_id (endorsements db)) (mkEndorsement rid eid now)) db,
     Returns (next_id (endorsements db), mkEndorsement rid eid now)).
Proof.
  intros Hrec Hst Hnew. unfold endorse. step_db. rewrite Hrec, Hst.
  apply existing_endorsement_None in Hnew.
  unfold Endorsement_query_filter_by_first, read in Hnew. simpl in Hnew.
  injection Hnew as ->. done.
Qed.

Lemma endorsed_by_dec db rid eid :
  endorsed_by db rid eid ∨ ¬ endorsed_by db rid eid.
Proof.
  destruct (head (filter (λ kv : Z * Endorsement,
                recognition_id kv.2 = rid ∧ endorser_id kv.2 = eid)
              (map_to_list (endorsements db)))) as [kv|] eqn:Hhead.
  - left. apply head_Some_elem_of, list_elem_of_filter in Hhead as [[Hr He] Hin].
    destruct kv as [k e]. apply elem_of_map_to_list in Hin. by exists k, e.
  - right. apply existing_endorsement_None.
    unfold Endorsement_query_filter_by_first, read. simpl. by rewrite Hhead.
Qed.

Lemma unique_endorsements_insert db rid eid now :
  unique_endorsements db →
  ¬ endorsed_by db rid eid →
  unique_endorsements
    (with_endorsements
       (insert (next_id (endorsements db)) (mkEndorsement rid eid now)) db).
Proof.
  intros Huniq Hnew k1 k2 e1 e2. simpl.
  rewrite !lookup_insert.
  repeat case_decide; subst.
  - done.
  - intros [= <-] H2 Hr He. simpl in *.
    exfalso. apply Hnew. by exists k2, e2.
  - intros H1 [= <-] Hr He. simpl in *.
    exfalso. apply Hnew. by exists k1, e1.
  - apply Huniq.
Qed.

Lemma endorse_students now rid eid db :
  students (endorse now rid eid db).1 = students db.
Proof.
  unfold endorse. step_db.
  destruct (recognitions db !! rid); [|done].
  destruct (students db !! eid); [|done].
  by destruct (head _).
Qed.

Lemma endorse_unique now rid eid db :
  unique_endorsements db → unique_endorsements (endorse now rid eid db).1.
Proof.
  intros Huniq.
  destruct (recognitions db !! rid) as [rec|] eqn:Hrec.
  2:{ unfold endorse. step_db. by rewrite Hrec. }
  destruct (students db !! eid) as [st|] eqn:Hst.
  2:{ unfold endorse. step_db. by rewrite Hrec, Hst. }
  destruct (endorsed_by_dec db rid eid) as [Hdup|Hnew].
  - by rewrite (endorse_duplicate _ _ _ _ rec st).
  - rewrite (endorse_commits _ _ _ _ rec st) by done.
    by apply unique_endorsements_insert.
Qed.

(** C3: [endorse] first checks that the recognition exists, then that the
    endorser exists.  For an existing recognition and endorser it raises the
    duplicate failure exactly when that endorser has already endorsed that
    recognition, and then changes nothing; otherwise it inserts one
    endorsement for the pair under a new key and returns it.  The students
    table is never touched, the uniqueness of (recognition, endorser) pairs
    is kept, a second call for the same pair raises the duplicate failure,
    and another student who has not endorsed the recognition is still
    accepted afterwards. *)
Theorem endorse_spec now rid eid db :
  let result := endorse now rid eid db in
  (recognitions db !! rid = None →
     result = (db, Raises (RecognitionNotFound rid)))
  ∧ (is_Some (recognitions db !! rid) → students db !! eid = None →
     result = (db, Raises (EndorserNotFound eid)))
  ∧ (is_Some (recognitions db !! rid) → is_Some (students db !! eid) →
       (result.2 = Raises DuplicateEndorsement ↔ endorsed_by db rid eid)
       ∧ (endorsed_by db rid eid → result.1 = db)
       ∧ (¬ endorsed_by db rid eid →
            ∃ id, result = (with_endorsements
                              (insert id (mkEndorsement rid eid now)) db,
                            Returns (id, mkEndorsement rid eid now))
                  ∧ endorsements db !! id = None
                  ∧ size (endorsements result.1) = S (size (endorsements db)))
       ∧ (∀ now', endorse now' rid eid result.1 =
                    (result.1, Raises DuplicateEndorsement))
       ∧ (∀ now' eid', eid' ≠ eid → is_Some (students db !! eid') →
            ¬ endorsed_by db rid eid' →
            ∃ id', (endorse now' rid eid' result.1).2 =
                     Returns (id', mkEndorsement rid eid' now')))
  ∧ students result.1 = students db
  ∧ recognitions result.1 = recognitions db
  ∧ (unique_endorsements db → unique_endorsements result.1).
Proof.
  intros result. subst result.
  split; [|split; [|split; [|split; [|split]]]].
  - intros Hrec. unfold endorse. step_db. by rewrite Hrec.
  - intros [rec Hrec] Hst. unfold endorse. step_db. by rewrite Hrec, Hst.
  - intros [rec Hrec] [st Hst].
    destruct (endorsed_by_dec db rid eid) as [Hdup|Hnew].
    + rewrite (endorse_duplicate _ _ _ _ rec st) by done. simpl.
      repeat split; try done.
      * intros now'. by apply (endorse_duplicate _ _ _ _ rec st).
      * intros now' eid' Hne [st' Hst'] Hnew'.
        rewrite (endorse_commits _ _ _ _ rec st') by done. by eexists.
    + rewrite (endorse_commits _ _ _ _ rec st) by done. simpl.
      split; [split; [done|by intros ?]|].
      split; [by intros ?|].
      split.
      { intros _. eexists. split; [done|]. split; [apply next_id_fresh|].
        apply map_size_insert_None, next_id_fresh. }
      split.
      * intros now'. apply (endorse_duplicate _ _ _ _ rec st); [done..|].
        eexists _, _. simpl. split; [apply lookup_insert_eq|done].
      * intros now' eid' Hne [st' Hst'] Hnew'.
        rewrite (endorse_commits _ _ _ _ rec st'); [by eexists|done..|].
        intros (k & e & Hk & Hr & He). simpl in Hk.
        rewrite lookup_insert in Hk. case_decide.
        -- injection Hk as <-. simpl in He. done.
        -- apply Hnew'. by exists k, e.
  - apply endorse_students.
  - unfold endorse. step_db.
    destruct (recognitions db !! rid); [|done].
    destruct (students db !! eid); [|done].
    by destruct (head _).
  - apply endorse_unique.
Qed.

(** The example of the specification: on the recognition of the end-to-end
    scenario a first endorsement by A is accepted, a second by A is refused,
    one by B is accepted. *)
Example endorse_twice :
  let db1 := (create_recognition t0 1 2 30 None two_students).1 in
  let db2 := (endorse t0 1 1 db1).1 in
  (endorse t0 1 1 db1).2 = Returns (1, mkEndorsement 1 1 t0)
  ∧ endorse t0 1 1 db2 = (db2, Raises DuplicateEndorsement)
  ∧ (endorse t0 1 2 db2).2 = Returns (2, mkEndorsement 1 2 t0).
Proof. vm_compute. done. Qed.

(** ** [ensure_monthly_reset] *)

Lemma month_start_ltb last now :
  dt_ltb (replace_month_start last) (replace_month_start now) = true
  ↔ earlier_month last now.
Proof.
  unfold dt_ltb, dt_tuple, replace_month_start, earlier_month. simpl.
  rewrite !andb_false_r, !orb_false_r.
  destruct (Z.ltb_spec (year last) (year now)),
           (Z.eqb_spec (year last) (year now)),
           (Z.ltb_spec (month last) (month now)); simpl; split;
    try done; try lia; intros _; lia.
Qed.

Lemma needs_reset_iff now s :
  needs_reset now s = true
  ↔ last_credit_reset s = None
    ∨ ∃ last, last_credit_reset s = Some last ∧ earlier_month last now.
Proof.
  unfold needs_reset. destruct (last_credit_reset s) as [last|].
  - rewrite month_start_ltb. split.
    + intros H. right. by exists last.
    + intros [[=] | (l & [= <-] & H)]. done.
  - split; [by left|done].
Qed.

Lemma needs_reset_same_month now1 now2 s :
  year now2 = year now1 → month now2 = month now1 →
  needs_reset now2 s = needs_reset now1 s.
Proof.
  intros Hy Hm. unfold needs_reset, replace_month_start. by rewrite Hy, Hm.
Qed.

Lemma needs_reset_reset_row now1 now2 s :
  year now2 = year now1 → month now2 = month now1 →
  needs_reset now2 (reset_row now1 s) = false.
Proof.
  intros Hy Hm. rewrite (needs_reset_same_month now1 now2) by done.
  unfold reset_row. destruct (needs_reset now1 s) eqn:E; [|done].
  apply not_true_is_false. rewrite needs_reset_iff. simpl.
  intros [[=] | (l & [= <-] & H)]. unfold earlier_month in H. lia.
Qed.

Lemma ensure_monthly_reset_run now student db s :
  students db !! student = Some s →
  ensure_monthly_reset now student db =
    if needs_reset now s then
      (with_monthly_reset_logs
         (insert (next_id (monthly_reset_logs db)) (reset_log_of now student s))
         (with_students (insert student (reset_row now s)) db),
       Returns true)
    else (db, Returns false).
Proof.
  intros Hs. unfold ensure_monthly_reset. step_db. rewrite Hs.
  destruct (needs_reset now s) eqn:E; simpl; [|done].
  unfold with_monthly_reset_logs, with_students, reset_log_of. simpl.
  do 3 f_equal. apply map_eq. intros k.
  rewrite lookup_insert. case_decide.
  - subst k. rewrite !lookup_alter_eq, Hs. simpl. unfold reset_row. by rewrite E.
  - by rewrite !lookup_alter_ne.
Qed.

(** The students table after [ensure_monthly_reset], reset or not. *)
Lemma ensure_monthly_reset_students now student db s :
  students db !! student = Some s →
  students (ensure_monthly_reset now student db).1 =
    <[student := reset_row now s]> (students db).
Proof.
  intros Hs. rewrite (ensure_monthly_reset_run _ _ _ s) by done.
  unfold reset_row. destruct (needs_reset now s); simpl; [done|].
  by rewrite insert_id.
Qed.

(** C5: a reset is needed exactly when the student has never been reset or
    the (year, month) of the last reset is strictly before the (year, month)
    of [now].  When needed, the call returns [true], the balance becomes
    100 plus the smaller of 50 and the old balance, the monthly total
    becomes 0, the last reset becomes [now], and one log row with the month,
    the year and the carried amount is inserted; otherwise the call returns
    [false] and changes nothing.  An old balance of 30 gives 130, one of 80
    gives 150. *)
Theorem ensure_monthly_reset_spec now student db s :
  students db !! student = Some s →
  (needs_reset now s = true
     ↔ last_credit_reset s = None
       ∨ ∃ last, last_credit_reset s = Some last
           ∧ (year last < year now
              ∨ (year last = year now ∧ month last < month now)))
  ∧ (needs_reset now s = true →
       ∃ db' id s',
         ensure_monthly_reset now student db = (db', Returns true)
         ∧ students db' !! student = Some s'
         ∧ current_balance s' = 100 + Z.min 50 (current_balance s)
         ∧ monthly_sent_this_month s' = 0
         ∧ last_credit_reset s' = Some now
         ∧ credits_received_total s' = credits_received_total s
         ∧ name s' = name s
         ∧ (current_balance s = 30 → current_balance s' = 130)
         ∧ (current_balance s = 80 → current_balance s' = 150)
         ∧ monthly_reset_logs db !! id = None
         ∧ monthly_reset_logs db' =
             <[id := mkMonthlyResetLog student (month now) (year now)
                       (Z.min 50 (current_balance s)) now]>
               (monthly_reset_logs db)
         ∧ (∀ k, k ≠ student → students db' !! k = students db !! k)
         ∧ recognitions db' = recognitions db
         ∧ endorsements db' = endorsements db
         ∧ redemptions db' = redemptions db)
  ∧ (needs_reset now s = false →
       ensure_monthly_reset now student db = (db, Returns false)).
Proof.
  intros Hs. split; [apply needs_reset_iff|]. split.
  - intros Hneed. rewrite (ensure_monthly_reset_run _ _ _ s) by done.
    rewrite Hneed. eexists _, _, _. split; [done|]. simpl.
    split; [apply lookup_insert_eq|].
    unfold reset_row. rewrite Hneed. simpl.
    repeat split; try lia.
    + apply next_id_fresh.
    + intros k Hk. by rewrite lookup_insert_ne.
  - intros Hneed. rewrite (ensure_monthly_reset_run _ _ _ s) by done.
    by rewrite Hneed.
Qed.

Lemma ensure_monthly_reset_spec_witness :
  (needs_reset (mkDatetime 2024 2 1 0 5 0 0) carol = true
     ↔ last_credit_reset carol = None
       ∨ ∃ last, last_credit_reset carol = Some last
           ∧ (year last < 2024 ∨ (year last = 2024 ∧ month last < 2)))
  ∧ (needs_reset (mkDatetime 2024 2 1 0 5 0 0) carol = true →
       ∃ db' id s',
         ensure_monthly_reset (mkDatetime 2024 2 1 0 5 0 0) 7 one_student
           = (db', Returns true)
         ∧ students db' !! 7 = Some s'
         ∧ current_balance s' = 100 + Z.min 50 80
         ∧ monthly_sent_this_month s' = 0
         ∧ last_credit_reset s' = Some (mkDatetime 2024 2 1 0 5 0 0)
         ∧ credits_received_total s' = 40
         ∧ name s' = "C"
         ∧ (80 = 30 → current_balance s' = 130)
         ∧ (80 = 80 → current_balance s' = 150)
         ∧ monthly_reset_logs one_student !! id = None
         ∧ monthly_reset_logs db' =
             <[id := mkMonthlyResetLog 7 2 2024 (Z.min 50 80)
                       (mkDatetime 2024 2 1 0 5 0 0)]>
               (monthly_reset_logs one_student)
         ∧ (∀ k, k ≠ 7 → students db' !! k = students one_student !! k)
         ∧ recognitions db' = recognitions one_student
         ∧ endorsements db' = endorsements one_student
         ∧ redemptions db' = redemptions one_student)
  ∧ (needs_reset (mkDatetime 2024 2 1 0 5 0 0) carol = false →
       ensure_monthly_reset (mkDatetime 2024 2 1 0 5 0 0) 7 one_student
         = (one_student, Returns false)).
Proof.
  apply (ensure_monthly_reset_spec (mkDatetime 2024 2 1 0 5 0 0) 7
           one_student carol).
  reflexivity.
Defined.

(** The examples of the specification, run. *)
Example reset_carry_forward :
  (current_balance <$>
     students (ensure_monthly_reset (mkDatetime 2024 2 1 0 5 0 0) 7
                 one_student).1 !! 7) = Some 150
  ∧ (current_balance <$>
       students (ensure_monthly_reset t0 9
                   (with_students (λ _, {[ 9 := mkStudent "D" 30 0 70 None ]})
                      empty_store)).1 !! 9) = Some 130.
Proof. vm_compute. done. Qed.

(** C6: after a call of [ensure_monthly_reset] at [now1], a call for the
    same student at any [now2] in the same calendar month returns [false]
    and leaves the whole database (every student field, every log row) as
    the first call left it. *)
Theorem ensure_monthly_reset_idempotent now1 now2 student db s :
  students db !! student = Some s →
  year now2 = year now1 →
  month now2 = month now1 →
  ensure_monthly_reset now2 student (ensure_monthly_reset now1 student db).1 =
    ((ensure_monthly_reset now1 student db).1, Returns false).
Proof.
  intros Hs Hy Hm.
  assert (students (ensure_monthly_reset now1 student db).1 !! student
          = Some (reset_row now1 s)) as Hs1.
  { rewrite (ensure_monthly_reset_students _ _ _ s) by done.
    apply lookup_insert_eq. }
  rewrite (ensure_monthly_reset_run now2 _ _ _ Hs1).
  by rewrite needs_reset_reset_row.
Qed.

Lemma ensure_monthly_reset_idempotent_witness :
  ensure_monthly_reset (mkDatetime 2024 2 29 23 0 0 0) 7
    (ensure_monthly_reset (mkDatetime 2024 2 1 0 5 0 0) 7 one_student).1 =
    ((ensure_monthly_reset (mkDatetime 2024 2 1 0 5 0 0) 7 one_student).1,
     Returns false).
Proof.
  apply (ensure_monthly_reset_idempotent (mkDatetime 2024 2 1 0 5 0 0)
           (mkDatetime 2024 2 29 23 0 0 0) 7 one_student carol).
  - reflexivity.
  - reflexivity.
  - reflexivity.
Defined.


(** ** [run_monthly_reset_for_all_students] *)

Section Loop.
Context {State : Type}.
Variable step : nat → Z → State → State * outcome bool.


Lemma reset_loop_preserves (P : State → Prop) todo i c st :
  (∀ j sid st0, P st0 → P (step j sid st0).1) →
  P st → P (reset_loop step i todo c st).1.
Proof.
  intros Hstep. revert i c st.
  induction todo as [|sid todo IH]; intros i c st HP; simpl; [done|].
  specialize (Hstep i sid st HP).
  destruct (step i sid st) as [st1 [performed|e]]; simpl in *; [|done].
  by apply IH.
Qed.
End Loop.

Lemma resets_due_ext clock t1 t2 i todo :
  (∀ sid, sid ∈ todo → t1 !! sid = t2 !! sid) →
  resets_due clock t1 i todo = resets_due clock t2 i todo.
Proof.
  revert i. induction todo as [|sid todo IH]; intros i Hext; simpl; [done|].
  rewrite Hext by set_solver. f_equal. apply IH. intros. apply Hext. set_solver.
Qed.

Lemma resets_due_nonneg clock t i todo : 0 ≤ resets_due clock t i todo.
Proof.
  revert i. induction todo as [|sid todo IH]; intros i; simpl; [done|].
  specialize (IH (S i)).
  destruct (t !! sid) as [s|]; [destruct (needs_reset (clock i) s)|]; lia.
Qed.

(** What the loop does to the students of [todo], and to nothing else. *)
Lemma reset_loop_run clock todo i c db :
  NoDup todo →
  (∀ sid, sid ∈ todo → is_Some (students db !! sid)) →
  ∃ db',
    reset_loop (λ j, ensure_monthly_reset (clock j)) i todo c db =
      (db', Returns (c + resets_due clock (students db) i todo))
    ∧ (∀ j sid s, todo !! j = Some sid → students db !! sid = Some s →
         students db' !! sid = Some (reset_row (clock (i + j)%nat) s))
    ∧ (∀ sid, sid ∉ todo → students db' !! sid = students db !! sid)
    ∧ recognitions db' = recognitions db
    ∧ endorsements db' = endorsements db
    ∧ redemptions db' = redemptions db
    ∧ Z.of_nat (size (monthly_reset_logs db')) =
        Z.of_nat (size (monthly_reset_logs db))
        + resets_due clock (students db) i todo.
Proof.
  revert i c db. induction todo as [|sid todo IH]; intros i c db Hnd Hin.
  - exists db. simpl. rewrite !Z.add_0_r. repeat split; done.
  - apply NoDup_cons in Hnd as [Hnotin Hnd].
    destruct (Hin sid) as [s Hs]; [set_solver|].
    pose proof (ensure_monthly_reset_run (clock i) sid db s Hs) as Hrun.
    pose proof (ensure_monthly_reset_students (clock i) sid db s Hs) as Hst.
    destruct (ensure_monthly_reset (clock i) sid db) as [db1 o] eqn:Hcall.
    simpl in Hst.
    assert (o = Returns (needs_reset (clock i) s)
            ∧ recognitions db1 = recognitions db
            ∧ endorsements db1 = endorsements db
            ∧ redemptions db1 = redemptions db
            ∧ Z.of_nat (size (monthly_reset_logs db1)) =
                Z.of_nat (size (monthly_reset_logs db))
                + (if needs_reset (clock i) s then 1 else 0))
      as (-> & Hrec1 & Hend1 & Hred1 & Hlogs1).
    { destruct (needs_reset (clock i) s); injection Hrun as -> ->; simpl.
      - repeat split; try done.
        rewrite map_size_insert_None by apply next_id_fresh. lia.
      - repeat split; try done. lia. }
    assert (∀ k, k ≠ sid → students db1 !! k = students db !! k) as Hother.
    { intros k Hk. rewrite Hst. by rewrite lookup_insert_ne. }
    assert (resets_due clock (students db1) (S i) todo
            = resets_due clock (students db) (S i) todo) as Hdue.
    { apply resets_due_ext. intros k Hk. apply Hother. set_solver. }
    destruct (IH (S i)
                (if needs_reset (clock i) s then c + 1 else c) db1 Hnd)
      as (db' & Hloop & Hrows & Hrest & Hrec & Hend & Hred & Hlogs).
    { intros k Hk. rewrite Hother by set_solver. apply Hin. set_solver. }
    exists db'. simpl. rewrite Hs.
    split; [|split; [|split; [|split; [|split; [|split]]]]].
    + rewrite Hcall, Hloop, Hdue.
      destruct (needs_reset (clock i) s); do 2 f_equal; lia.
    + intros j k s' Hj Hk. destruct j as [|j]; simpl in Hj.
      * injection Hj as <-. rewrite Hs in Hk. injection Hk as <-.
        rewrite Hrest by done. rewrite Hst, lookup_insert_eq.
        by rewrite Nat.add_0_r.
      * replace (i + S j)%nat with (S i + j)%nat by lia.
        apply Hrows; [done|]. rewrite Hother; [done|].
        intros ->. apply Hnotin. by eapply list_elem_of_lookup_2.
    + intros k Hk. rewrite Hrest by set_solver. apply Hother. set_solver.
    + congruence.
    + congruence.
    + congruence.
    + rewrite Hlogs, Hdue, Hlogs1. lia.
Qed.

(** A loop over students none of whom needs a reset changes nothing. *)
Lemma reset_loop_idle clock todo i c db :
  (∀ j sid, todo !! j = Some sid →
     ∃ s, students db !! sid = Some s
          ∧ needs_reset (clock (i + j)%nat) s = false) →
  reset_loop (λ j, ensure_monthly_reset (clock j)) i todo c db =
    (db, Returns c).
Proof.
  revert i c. induction todo as [|sid todo IH]; intros i c Hidle; simpl.
  - done.
  - destruct (Hidle 0%nat sid) as (s & Hs & Hno); [done|].
    rewrite Nat.add_0_r in Hno.
    rewrite (ensure_monthly_reset_run _ _ _ s Hs), Hno.
    apply IH. intros j k Hj.
    replace (S i + j)%nat with (i + S j)%nat by lia. by apply Hidle.
Qed.

Lemma student_ids_Permutation db :
  student_ids db ≡ₚ (map_to_list (students db)).*1.
Proof. apply merge_sort_Permutation. Qed.

Lemma student_keys_NoDup db : NoDup (student_ids db).
Proof. rewrite student_ids_Permutation. apply NoDup_fst_map_to_list. Qed.

Lemma student_keys_elem db sid :
  sid ∈ student_ids db ↔ is_Some (students db !! sid).
Proof.
  rewrite student_ids_Permutation, list_elem_of_fmap. split.
  - intros ([k s] & -> & Hin). apply elem_of_map_to_list in Hin. by exists s.
  - intros [s Hs]. exists (sid, s). split; [done|].
    by apply elem_of_map_to_list.
Qed.


Lemma run_monthly_reset_run clock db :
  ∃ db',
    run_monthly_reset_for_all_students clock db =
      (db', Returns (resets_due clock (students db) 0 (student_ids db)))
    ∧ (∀ sid s, students db !! sid = Some s →
         ∃ j, student_ids db !! j = Some sid
              ∧ students db' !! sid = Some (reset_row (clock j) s))
    ∧ (∀ sid, students db !! sid = None → students db' !! sid = None)
    ∧ Z.of_nat (size (monthly_reset_logs db')) =
        Z.of_nat (size (monthly_reset_logs db))
        + resets_due clock (students db) 0 (student_ids db)
    ∧ recognitions db' = recognitions db
    ∧ endorsements db' = endorsements db
    ∧ redemptions db' = redemptions db.
Proof.
  destruct (reset_loop_run clock (student_ids db) 0 0 db)
    as (db' & Hloop & Hrows & Hrest & Hrec & Hend & Hred & Hlogs).
  { apply student_keys_NoDup. }
  { intros sid. apply student_keys_elem. }
  exists db'. rewrite Z.add_0_l in Hloop.
  split; [exact Hloop|]. split; [|split; [|done]].
  - intros sid s Hs.
    assert (sid ∈ student_ids db) as Hin.
    { apply student_keys_elem. by exists s. }
    apply list_elem_of_lookup_1 in Hin as [j Hj].
    exists j. split; [done|]. by apply (Hrows j).
  - intros sid Hs. rewrite Hrest; [done|].
    rewrite student_keys_elem, Hs. by intros [? ?].
Qed.

Lemma run_monthly_reset_again clock clock2 db :
  (∀ i j, year (clock2 j) = year (clock i)
          ∧ month (clock2 j) = month (clock i)) →
  run_monthly_reset_for_all_students clock2
    (run_monthly_reset_for_all_students clock db).1 =
    ((run_monthly_reset_for_all_students clock db).1, Returns 0).
Proof.
  intros Hmonth.
  destruct (run_monthly_reset_run clock db)
    as (db1 & Hrun & Hrows & Hnone & _).
  rewrite Hrun. simpl.
  unfold run_monthly_reset_for_all_students, bind, Student_query_all, read.
  apply reset_loop_idle. intros j sid Hj. simpl.
  assert (is_Some (students db1 !! sid)) as [s1 Hs1].
  { apply student_keys_elem. by eapply list_elem_of_lookup_2. }
  exists s1. split; [done|].
  destruct (students db !! sid) as [s|] eqn:Hs.
  - destruct (Hrows sid s Hs) as (j0 & _ & Hs1').
    rewrite Hs1 in Hs1'. injection Hs1' as ->.
    apply needs_reset_reset_row; apply Hmonth.
  - rewrite (Hnone sid Hs) in Hs1. done.
Qed.

(** *** Commits that fail *)








(** Two students lacking a reset: both are reset by the first run and none
    by the second. *)
Example batch_reset_twice :
  let clock := λ _ : nat, t0 in
  let db1 := (run_monthly_reset_for_all_students clock two_students).1 in
  (run_monthly_reset_for_all_students clock two_students).2 = Returns 2
  ∧ size (monthly_reset_logs db1) = 2%nat
  ∧ run_monthly_reset_for_all_students clock db1 = (db1, Returns 0).
Proof.
  split; [by vm_compute|]. split; [by vm_compute|].
  apply run_monthly_reset_again. done.
Qed.

(** The commit for the second student (key 2) is refused: the reset of
    student 1 is kept, student 2 is as before. *)
Example batch_reset_failure :
  let result :=
    run_monthly_reset_in_session (λ i, (i =? 0)%nat) (λ _, t0)
      (clean two_students) in
  result.2 = Raises StoreFailure
  ∧ (current_balance <$> students (committed result.1) !! 1) = Some 150
  ∧ (current_balance <$> students (committed result.1) !! 2) = Some 100
  ∧ view result.1 = committed result.1.
Proof. vm_compute. done. Qed.

(** The clock passes the end of the month between the two students:
    student 1, last reset in February, is examined on 29 February and left
    alone; student 2, last reset in February, is examined on 1 March and
    reset. *)
Example batch_reset_month_boundary :
  let feb := mkDatetime 2024 2 10 0 0 0 0 in
  let clock := λ i : nat,
    if (i =? 0)%nat then mkDatetime 2024 2 29 23 59 59 0
    else mkDatetime 2024 3 1 0 0 0 0 in
  let db :=
    with_students
      (λ _, <[1 := mkStudent "A" 10 0 0 (Some feb)]>
              (<[2 := mkStudent "B" 20 0 0 (Some feb)]> ∅)) empty_store in
  (run_monthly_reset_for_all_students clock db).2 = Returns 1
  ∧ (current_balance <$>
       students (run_monthly_reset_for_all_students clock db).1 !! 1) = Some 10
  ∧ (current_balance <$>
       students (run_monthly_reset_for_all_students clock db).1 !! 2) = Some 120.
Proof. vm_compute. done. Qed.

(** ** The balance invariant *)

Lemma create_recognition_cases now sender_id receiver_id credits message db :
  (∃ e, create_recognition now sender_id receiver_id credits message db =
          (db, Raises e) ∧ e ≠ InvalidAmount)
  ∨ (∃ s r, students db !! sender_id = Some s
            ∧ students db !! receiver_id = Some r
            ∧ sender_id ≠ receiver_id
            ∧ credits ≤ current_balance s
            ∧ monthly_sent_this_month s + credits ≤ 100).
Proof.
  unfold create_recognition. step_db.
  destruct (students db !! sender_id) as [s|]; [|left; by eexists].
  destruct (students db !! receiver_id) as [r|]; [|left; by eexists].
  case_bool_decide; [left; by eexists|].
  destruct (gtb_false_iff credits (current_balance s)) as [H1 _].
  destruct (credits >? current_balance s); [left; by eexists|].
  destruct (gtb_false_iff (monthly_sent_this_month s + credits) 100) as [H2 _].
  destruct (_ >? 100); [left; by eexists|].
  right. exists s, r. repeat split; auto.
Qed.

Lemma create_recognition_nonneg now sender_id receiver_id credits message db :
  0 < credits → balances_nonneg db →
  balances_nonneg
    (create_recognition now sender_id receiver_id credits message db).1.
Proof.
  intros Hpos Hinv.
  destruct (create_recognition_cases now sender_id receiver_id credits
              message db)
    as [(e & -> & _) | (s & r & Hs & Hr & Hne & Hbal & Hmon)]; [done|].
  rewrite (create_recognition_commits _ _ _ _ _ _ s r) by done.
  intros k s'. simpl.
  destruct (decide (k = sender_id)) as [->|Hks].
  { rewrite (transferred_sender _ _ _ _ s) by done. intros [= <-]. simpl. lia. }
  destruct (decide (k = receiver_id)) as [->|Hkr].
  { rewrite (transferred_receiver _ _ _ _ r) by done. intros [= <-]. simpl.
    specialize (Hinv _ _ Hr). lia. }
  rewrite transferred_other by done. apply Hinv.
Qed.

Lemma redeem_nonneg now student_id credits_to_redeem db :
  balances_nonneg db →
  balances_nonneg (redeem now student_id credits_to_redeem db).1.
Proof.
  intros Hinv. unfold redeem. step_db.
  destruct (students db !! student_id) as [s|] eqn:Hs; [|done].
  destruct (credits_to_redeem <=? 0); [done|].
  destruct (Z.ltb_spec (current_balance s) credits_to_redeem); [done|].
  intros k s'. simpl. rewrite lookup_alter. case_decide.
  - subst k. rewrite Hs. intros [= <-]. simpl. lia.
  - apply Hinv.
Qed.

Lemma reset_row_nonneg now s :
  0 ≤ current_balance s → 0 ≤ current_balance (reset_row now s).
Proof. unfold reset_row. destruct (needs_reset now s); simpl; lia. Qed.

Lemma ensure_monthly_reset_nonneg now student db :
  balances_nonneg db →
  balances_nonneg (ensure_monthly_reset now student db).1.
Proof.
  intros Hinv. destruct (students db !! student) as [s|] eqn:Hs.
  - intros k s'. rewrite (ensure_monthly_reset_students _ _ _ s) by done.
    rewrite lookup_insert. case_decide.
    + intros [= <-]. apply reset_row_nonneg. by eapply Hinv.
    + apply Hinv.
  - unfold ensure_monthly_reset. step_db. by rewrite Hs.
Qed.

Lemma commit_nonneg op db :
  positive_amount op → balances_nonneg db → balances_nonneg (commit op db).
Proof.
  intros Hpos Hinv. destruct op; simpl in *.
  - by apply create_recognition_nonneg.
  - unfold balances_nonneg. rewrite endorse_students. apply Hinv.
  - by apply redeem_nonneg.
  - by apply ensure_monthly_reset_nonneg.
  - unfold run_monthly_reset_for_all_students, bind, Student_query_all, read.
    apply (reset_loop_preserves _ balances_nonneg); [|done].
    intros j sid db0. apply ensure_monthly_reset_nonneg.
Qed.

(** C9: starting from a database in which no balance is negative, after
    every call of a sequence of calls of the five operations, each given a
    positive credit amount, no balance is negative. *)
Theorem current_balance_never_negative ops db :
  balances_nonneg db →
  Forall positive_amount ops →
  ∀ n, balances_nonneg (commit_all (take n ops) db).
Proof.
  intros Hinv Hpos n. revert db Hinv n.
  induction Hpos as [|op ops Hop Hops IH]; intros db Hinv n.
  - by rewrite take_nil.
  - destruct n as [|n]; simpl; [done|].
    apply IH. by apply commit_nonneg.
Qed.

Lemma current_balance_never_negative_witness :
  balances_nonneg
    (commit_all
       (take 4 [CreateRecognition t0 1 2 100 None; Redeem t0 2 200;
                Endorse t0 1 2; RunMonthlyResetForAllStudents (λ _, t0);
                CreateRecognition t0 2 1 100 None])
       two_students).
Proof.
  apply (current_balance_never_negative
           [CreateRecognition t0 1 2 100 None; Redeem t0 2 200;
            Endorse t0 1 2; RunMonthlyResetForAllStudents (λ _, t0);
            CreateRecognition t0 2 1 100 None] two_students).
  - intros sid s. unfold two_students. simpl.
    rewrite !lookup_insert. repeat case_decide; try done;
      intros [= <-]; simpl; lia.
  - repeat constructor; simpl; lia.
Defined.

(** ** Non-positive amounts *)

(** C10: [create_recognition] has no check on the sign of [credits] and no
    failure for an invalid amount.  A negative amount that passes the
    balance and the monthly checks is carried out: the sender's balance
    grows, the sender's monthly total shrinks, the receiver's balance and
    lifetime total shrink; with -5 between two new students the sender ends
    with 105 and -5, the receiver with 95 and -5.  Only the HTTP endpoint
    refuses an amount that is not positive. *)
Theorem create_recognition_accepts_negative_credits :
  (∀ now sender_id receiver_id credits message db db' e,
     create_recognition now sender_id receiver_id credits message db =
       (db', Raises e) → e ≠ InvalidAmount)
  ∧ (∀ now sender_id receiver_id credits message db s r,
       students db !! sender_id = Some s →
       students db !! receiver_id = Some r →
       sender_id ≠ receiver_id →
       credits < 0 →
       credits ≤ current_balance s →
       monthly_sent_this_month s + credits ≤ 100 →
       ∃ db' id s' r',
         create_recognition now sender_id receiver_id credits message db =
           (db', Returns (id, mkRecognition sender_id receiver_id credits
                                message now))
         ∧ students db' !! sender_id = Some s'
         ∧ students db' !! receiver_id = Some r'
         ∧ current_balance s < current_balance s'
         ∧ monthly_sent_this_month s' < monthly_sent_this_month s
         ∧ current_balance r' < current_balance r
         ∧ credits_received_total r' < credits_received_total r)
  ∧ (∃ db' id,
       create_recognition t0 1 2 (-5) None two_students =
         (db', Returns (id, mkRecognition 1 2 (-5) None t0))
       ∧ students db' !! 1 = Some (mkStudent "A" 105 0 (-5) None)
       ∧ students db' !! 2 = Some (mkStudent "B" 95 (-5) 0 None))
  ∧ (∀ now sender_id receiver_id credits message db,
       credits ≤ 0 →
       create_recognition_endpoint now sender_id receiver_id credits message db
         = (db, (400, None))).
Proof.
  split; [|split; [|split]].
  - intros now sender_id receiver_id credits message db db' e Hraise.
    destruct (create_recognition_cases now sender_id receiver_id credits
                message db)
      as [(e' & He' & Hne) | (s & r & Hs & Hr & Hne & Hbal & Hmon)].
    + rewrite He' in Hraise. by injection Hraise as _ <-.
    + rewrite (create_recognition_commits _ _ _ _ _ _ s r) in Hraise by done.
      done.
  - intros now sender_id receiver_id credits message db s r
      Hs Hr Hne Hneg Hbal Hmon.
    eexists _, _, _, _. split.
    { by apply (create_recognition_commits _ _ _ _ _ _ s r). }
    simpl. split; [by apply transferred_sender|].
    split; [by apply transferred_receiver|].
    simpl. lia.
  - eexists _, _. split; [|split].
    + apply (create_recognition_commits _ _ _ _ _ _
               (new_student "A") (new_student "B")); ( reflexivity || (simpl; lia)).
    + reflexivity.
    + reflexivity.
  - intros now sender_id receiver_id credits message db Hle.
    unfold create_recognition_endpoint. apply Z.leb_le in Hle. by rewrite Hle.
Qed.

(** ** [leaderboard] *)

Lemma count_distinct_size {V : Type} (col : list (option Z)) (m : gmap Z V) :
  (∀ k, Some k ∈ col ↔ is_Some (m !! k)) →
  count_distinct col = Z.of_nat (size m).
Proof.
  intros Hcol. unfold count_distinct. f_equal.
  rewrite <- length_map_to_list, <- (length_fmap fst).
  apply Permutation_length, NoDup_Permutation.
  - apply NoDup_remove_dups.
  - apply NoDup_fst_map_to_list.
  - intros k. rewrite elem_of_remove_dups, list_elem_of_omap.
    rewrite list_elem_of_fmap. split.
    + intros (x & Hx & ->). apply Hcol in Hx as [v Hv].
      exists (k, v). split; [done|]. by apply elem_of_map_to_list.
    + intros ([k' v] & -> & Hin). apply elem_of_map_to_list in Hin.
      exists (Some k'). split; [|done]. apply Hcol. by exists v.
Qed.

(** The rows of the join, one by one. *)
Lemma join_rows_elem db sid a b :
  (a, b) ∈ join_rows db sid ↔
    ((∀ k r, recognitions db !! k = Some r → receiver_id r ≠ sid)
     ∧ a = None ∧ b = None)
    ∨ (∃ k r, recognitions db !! k = Some r ∧ receiver_id r = sid
              ∧ a = Some k
              ∧ (((∀ j e, endorsements db !! j = Some e →
                          recognition_id e ≠ k) ∧ b = None)
                 ∨ (∃ j e, endorsements db !! j = Some e
                           ∧ recognition_id e = k ∧ b = Some j))).
Proof.
  unfold join_rows.
  set (rs := filter _ (map_to_list (recognitions db))).
  assert (∀ k r, (k, r) ∈ rs ↔ recognitions db !! k = Some r
                                 ∧ receiver_id r = sid) as Hrs.
  { intros k r. unfold rs. rewrite list_elem_of_filter, elem_of_map_to_list.
    simpl. tauto. }
  assert (∀ k j e,
            (j, e) ∈ filter (λ ke : Z * Endorsement, recognition_id ke.2 = k)
                       (map_to_list (endorsements db))
            ↔ endorsements db !! j = Some e ∧ recognition_id e = k) as Hes.
  { intros k j e. rewrite list_elem_of_filter, elem_of_map_to_list.
    simpl. tauto. }
  assert (∀ kr : Z * Recognition,
    (a, b) ∈ match filter (λ ke : Z * Endorsement, recognition_id ke.2 = kr.1)
                     (map_to_list (endorsements db)) with
             | [] => [(Some kr.1, None)]
             | _ :: _ =>
                 (λ ke : Z * Endorsement, (Some kr.1, Some ke.1)) <$>
                   filter (λ ke : Z * Endorsement, recognition_id ke.2 = kr.1)
                     (map_to_list (endorsements db))
             end
    ↔ a = Some kr.1
      ∧ (((∀ j e, endorsements db !! j = Some e → recognition_id e ≠ kr.1)
          ∧ b = None)
         ∨ (∃ j e, endorsements db !! j = Some e
                   ∧ recognition_id e = kr.1 ∧ b = Some j))) as Hinner.
  { intros kr. specialize (Hes kr.1).
    destruct (filter _ (map_to_list (endorsements db))) as [|ke es].
    - rewrite list_elem_of_singleton. split.
      + intros [= -> ->]. split; [done|]. left. split; [|done].
        intros j e Hj Hk. assert ((j, e) ∈ @nil (Z * Endorsement)) as Hin
          by (by apply Hes). by apply elem_of_nil in Hin.
      + intros (-> & [[_ ->] | (j & e & Hj & Hk & _)]); [done|].
        assert ((j, e) ∈ @nil (Z * Endorsement)) as Hin by (by apply Hes).
        by apply elem_of_nil in Hin.
    - rewrite list_elem_of_fmap. split.
      + intros ([j e] & [= -> ->] & Hin). split; [done|]. right.
        apply Hes in Hin as [Hj Hk]. by exists j, e.
      + intros (-> & [[Hnone _] | (j & e & Hj & Hk & ->)]).
        * destruct ke as [j e].
          assert (endorsements db !! j = Some e ∧ recognition_id e = kr.1)
            as [Hj Hk] by (apply Hes; left).
          by destruct (Hnone j e Hj).
        * exists (j, e). split; [done|]. by apply Hes. }
  destruct rs as [|kr0 rs'] eqn:Ers.
  - rewrite list_elem_of_singleton. split.
    + intros [= -> ->]. left. split; [|done]. intros k r Hk Hr.
      assert ((k, r) ∈ @nil (Z * Recognition)) as Hin by (by apply Hrs).
      by apply elem_of_nil in Hin.
    + intros [(_ & -> & ->) | (k & r & Hk & Hr & _)]; [done|].
      assert ((k, r) ∈ @nil (Z * Recognition)) as Hin by (by apply Hrs).
      by apply elem_of_nil in Hin.
  - rewrite list_elem_of_bind. split.
    + intros ([k r] & Hab & Hin). apply Hinner in Hab as [-> Hb].
      apply Hrs in Hin as [Hk Hr]. right. by exists k, r.
    + intros [(Hnone & _) | (k & r & Hk & Hr & -> & Hb)].
      * destruct kr0 as [k r].
        assert (recognitions db !! k = Some r ∧ receiver_id r = sid)
          as [Hk Hr] by (apply Hrs; left).
        by destruct (Hnone k r Hk).
      * exists (k, r). split; [by apply Hinner|]. by apply Hrs.
Qed.

Lemma join_rows_recognitions db sid k :
  Some k ∈ (join_rows db sid).*1 ↔ is_Some (recognitions_received db sid !! k).
Proof.
  unfold recognitions_received. rewrite list_elem_of_fmap. split.
  - intros ([a b] & Ha & Hin). simpl in Ha. subst a.
    apply join_rows_elem in Hin
      as [(_ & [=] & _) | (k' & r & Hk & Hr & [= <-] & _)].
    exists r. by apply map_lookup_filter_Some.
  - intros [r Hr]. apply map_lookup_filter_Some in Hr as [Hk Hr]. simpl in Hr.
    destruct (head (filter (λ ke : Z * Endorsement, recognition_id ke.2 = k)
                      (map_to_list (endorsements db)))) as [[j e]|] eqn:Hhead.
    + apply head_Some_elem_of, list_elem_of_filter in Hhead as [He Hin].
      apply elem_of_map_to_list in Hin. simpl in He.
      exists (Some k, Some j). split; [done|]. apply join_rows_elem.
      right. exists k, r. repeat split; try done. right. by exists j, e.
    + apply head_None in Hhead.
      exists (Some k, None). split; [done|]. apply join_rows_elem.
      right. exists k, r. repeat split; try done. left. split; [|done].
      intros j e Hj He.
      assert ((j, e) ∈ filter (λ ke : Z * Endorsement, recognition_id ke.2 = k)
                         (map_to_list (endorsements db))) as Hin.
      { apply list_elem_of_filter. split; [done|]. by apply elem_of_map_to_list. }
      rewrite Hhead in Hin. by apply elem_of_nil in Hin.
Qed.

Lemma join_rows_endorsements db sid j :
  Some j ∈ (join_rows db sid).*2 ↔ is_Some (endorsements_received db sid !! j).
Proof.
  unfold endorsements_received. rewrite list_elem_of_fmap. split.
  - intros ([a b] & Hb & Hin). simpl in Hb. subst b.
    apply join_rows_elem in Hin
      as [(_ & _ & [=]) | (k & r & Hk & Hr & -> & Hb)].
    destruct Hb as [[_ [=]] | (j' & e & Hj & He & [= <-])].
    exists e. apply map_lookup_filter_Some. split; [done|]. simpl.
    by rewrite He, Hk, <- Hr.
  - intros [e He]. apply map_lookup_filter_Some in He as [Hj He]. simpl in He.
    destruct (recognitions db !! recognition_id e) as [r|] eqn:Hk; [|done].
    injection He as Hr.
    exists (Some (recognition_id e), Some j). split; [done|].
    apply join_rows_elem. right. exists (recognition_id e), r.
    repeat split; try done. right. by exists j, e.
Qed.

(** The aggregates of the query are the counts of the specification. *)
Lemma leaderboard_row_entry db ks :
  leaderboard_row db ks = leaderboard_entry db ks.
Proof.
  unfold leaderboard_row, leaderboard_entry. f_equal.
  - apply count_distinct_size. apply join_rows_recognitions.
  - apply count_distinct_size. apply join_rows_endorsements.
Qed.

Lemma or_zero_id x : or_zero x = x.
Proof. unfold or_zero. destruct (Z.eqb_spec x 0); congruence. Qed.

Lemma to_dict_id e : to_dict e = e.
Proof. destruct e. unfold to_dict. simpl. by rewrite !or_zero_id. Qed.

Global Instance ranks_before_total : Total ranks_before.
Proof. intros a b. unfold ranks_before. lia. Qed.

Global Instance ranks_before_trans : Transitive ranks_before.
Proof. intros a b c. unfold ranks_before. lia. Qed.

Global Instance key_before_antisymm : AntiSymm (=) key_before.
Proof.
  intros [c1 i1] [c2 i2]. unfold key_before. simpl. intros H1 H2.
  f_equal; lia.
Qed.

(** The sorted rows of the query, before [LIMIT]. *)
Lemma ranking_sorted db :
  StronglySorted ranks_before
    (merge_sort ranks_before (leaderboard_row db <$> map_to_list (students db))).
Proof. apply (StronglySorted_merge_sort _). Qed.

Lemma ranking_keys db :
  rank_key <$>
    merge_sort ranks_before (leaderboard_row db <$> map_to_list (students db))
  ≡ₚ (λ ks : Z * Student, (credits_received_total ks.2, ks.1)) <$>
       map_to_list (students db).
Proof.
  rewrite merge_sort_Permutation, <- list_fmap_compose. done.
Qed.

Lemma ranking_ids_NoDup db :
  NoDup (lb_student_id <$>
           merge_sort ranks_before
             (leaderboard_row db <$> map_to_list (students db))).
Proof.
  rewrite merge_sort_Permutation, <- list_fmap_compose.
  apply NoDup_fst_map_to_list.
Qed.

(** The order of the students does not depend on the endorsements. *)
Lemma ranking_ignores_endorsements db endorsements' :
  lb_student_id <$>
    merge_sort ranks_before
      (leaderboard_row (with_endorsements (λ _, endorsements') db) <$>
         map_to_list (students db))
  = lb_student_id <$>
      merge_sort ranks_before
        (leaderboard_row db <$> map_to_list (students db)).
Proof.
  assert (∀ l : list LeaderboardEntry,
            lb_student_id <$> l = snd <$> (rank_key <$> l)) as Hids.
  { intros l. by rewrite <- list_fmap_compose. }
  rewrite !Hids. f_equal.
  apply (StronglySorted_unique key_before).
  - apply (StronglySorted_fmap _ ranks_before); [by intros ??|].
    apply (ranking_sorted (with_endorsements (λ _, endorsements') db)).
  - apply (StronglySorted_fmap _ ranks_before); [by intros ??|].
    apply ranking_sorted.
  - rewrite ranking_keys.
    by rewrite (ranking_keys (with_endorsements (λ _, endorsements') db)).
Qed.

(** C8: for a positive [limit], [leaderboard] returns the first [limit]
    entries (so at most [limit]) of a ranking that holds one entry for
    every student of the table, whatever the student has received, sorted
    by lifetime total descending and, among equal totals, by student key
    ascending.  An entry carries the stored lifetime total, the number of
    recognitions received and the number of endorsements of recognitions
    received (0 when there are none).  Replacing the endorsements table by
    any other leaves the order of the students as it is. *)
Theorem leaderboard_spec limit db :
  0 < limit →
  ∃ ranking,
    leaderboard limit db = (db, Returns (take (Z.to_nat limit) ranking))
    ∧ Z.of_nat (length (take (Z.to_nat limit) ranking)) ≤ limit
    ∧ ranking ≡ₚ leaderboard_entry db <$> map_to_list (students db)
    ∧ (∀ sid s, students db !! sid = Some s →
         leaderboard_entry db (sid, s) ∈ ranking
         ∧ (recognitions_received db sid = ∅ →
              recognition_count (leaderboard_entry db (sid, s)) = 0)
         ∧ (endorsements_received db sid = ∅ →
              endorsement_count (leaderboard_entry db (sid, s)) = 0))
    ∧ StronglySorted ranks_before ranking
    ∧ (∀ i j a b, (i < j)%nat →
         ranking !! i = Some a → ranking !! j = Some b →
         lb_credits_received_total b < lb_credits_received_total a
         ∨ (lb_credits_received_total a = lb_credits_received_total b
            ∧ lb_student_id a < lb_student_id b))
    ∧ (∀ endorsements',
         lb_student_id <$>
           match (leaderboard limit
                    (with_endorsements (λ _, endorsements') db)).2 with
           | Returns entries => entries
           | Raises _ => []
           end
         = lb_student_id <$> take (Z.to_nat limit) ranking).
Proof.
  intros Hpos.
  assert (∀ l, (to_dict <$> sql_limit limit l : list LeaderboardEntry)
               = take (Z.to_nat limit) l) as Hlimit.
  { intros l. unfold sql_limit.
    destruct (Z.ltb_spec limit 0); [lia|].
    rewrite (list_fmap_ext to_dict id) by (intros; apply to_dict_id).
    apply list_fmap_id. }
  exists (merge_sort ranks_before
            (leaderboard_row db <$> map_to_list (students db))).
  assert (merge_sort ranks_before
            (leaderboard_row db <$> map_to_list (students db))
          ≡ₚ leaderboard_entry db <$> map_to_list (students db)) as Hperm.
  { rewrite merge_sort_Permutation.
    by rewrite (list_fmap_ext (leaderboard_row db) (leaderboard_entry db))
      by (intros; apply leaderboard_row_entry). }
  split; [|split; [|split; [|split; [|split; [|split]]]]].
  - unfold leaderboard, read. by rewrite Hlimit.
  - rewrite length_take. lia.
  - exact Hperm.
  - intros sid s Hs. split; [|split].
    + rewrite Hperm. apply list_elem_of_fmap. exists (sid, s).
      split; [done|]. by apply elem_of_map_to_list.
    + intros Hnone. simpl. by rewrite Hnone, map_size_empty.
    + intros Hnone. simpl. by rewrite Hnone, map_size_empty.
  - apply ranking_sorted.
  - intros i j a b Hij Hi Hj.
    pose proof (StronglySorted_lookup_lt _ _ _ _ _ _
                  (ranking_sorted db) Hij Hi Hj) as Hab.
    assert (lb_student_id a ≠ lb_student_id b) as Hne.
    { intros Heq. pose proof (ranking_ids_NoDup db) as Hnd.
      assert (i = j); [|lia].
      eapply NoDup_lookup; [exact Hnd| |].
      - by rewrite list_lookup_fmap, Hi.
      - by rewrite list_lookup_fmap, Hj, Heq. }
    unfold ranks_before in Hab. lia.
  - intros endorsements'. unfold leaderboard, read. simpl.
    rewrite !Hlimit, !fmap_take. f_equal.
    apply ranking_ignores_endorsements.
Qed.

Lemma leaderboard_spec_witness :
  0 < 1 ∧
  ∃ ranking,
    leaderboard 1 scenario_store = (scenario_store, Returns (take (Z.to_nat 1) ranking))
    ∧ Z.of_nat (length (take (Z.to_nat 1) ranking)) ≤ 1
    ∧ ranking ≡ₚ leaderboard_entry scenario_store <$> map_to_list (students scenario_store)
    ∧ (∀ sid s, students scenario_store !! sid = Some s →
         leaderboard_entry scenario_store (sid, s) ∈ ranking
         ∧ (recognitions_received scenario_store sid = ∅ →
              recognition_count (leaderboard_entry scenario_store (sid, s)) = 0)
         ∧ (endorsements_received scenario_store sid = ∅ →
              endorsement_count (leaderboard_entry scenario_store (sid, s)) = 0))
    ∧ StronglySorted ranks_before ranking
    ∧ (∀ i j a b, (i < j)%nat →
         ranking !! i = Some a → ranking !! j = Some b →
         lb_credits_received_total b < lb_credits_received_total a
         ∨ (lb_credits_received_total a = lb_credits_received_total b
            ∧ lb_student_id a < lb_student_id b))
    ∧ (∀ endorsements',
         lb_student_id <$>
           match (leaderboard 1
                    (with_endorsements (λ _, endorsements') scenario_store)).2 with
           | Returns entries => entries
           | Raises _ => []
           end
         = lb_student_id <$> take (Z.to_nat 1) ranking).
Proof.
  split; [lia|]. apply (leaderboard_spec 1 scenario_store). lia.
Defined.

(** The ordering example of the specification: A (key 1) and B (key 2) have
    both received 50, A's recognition carries two endorsements, B's none;
    A comes first because of the key. *)
Example leaderboard_scenario :
  (leaderboard 1 scenario_store).2 = Returns [mkLeaderboardEntry 2 "B" 30 1 0].
Proof. vm_compute. done. Qed.

Example leaderboard_tie :
  let db :=
    commit_all
      [CreateRecognition t0 1 2 50 None; CreateRecognition t0 2 1 50 None;
       Endorse t0 2 1; Endorse t0 2 2]
      two_students in
  (leaderboard 10 db).2 =
    Returns [mkLeaderboardEntry 1 "A" 50 1 2; mkLeaderboardEntry 2 "B" 50 1 0].
Proof. vm_compute. done. Qed.

(** ** One endorsement per pair, in every reachable database *)

Lemma ensure_monthly_reset_endorsements now student db :
  endorsements (ensure_monthly_reset now student db).1 = endorsements db.
Proof.
  destruct (students db !! student) as [s|] eqn:Hs.
  - rewrite (ensure_monthly_reset_run _ _ _ s) by done.
    by destruct (needs_reset now s).
  - unfold ensure_monthly_reset. step_db. by rewrite Hs.
Qed.

Lemma commit_unique_endorsements op db :
  unique_endorsements db → unique_endorsements (commit op db).
Proof.
  intros Huniq.
  assert (∀ db', endorsements db' = endorsements db →
                 unique_endorsements db') as Hsame.
  { intros db' Heq. unfold unique_endorsements. by rewrite Heq. }
  destruct op as [now sid rid c msg | now rid eid | now sid c | now sid | clock];
    simpl.
  - apply Hsame.
    destruct (create_recognition_cases now sid rid c msg db)
      as [(e & -> & _) | (s & r & Hs & Hr & Hne & Hbal & Hmon)]; [done|].
    by rewrite (create_recognition_commits _ _ _ _ _ _ s r).
  - by apply endorse_unique.
  - apply Hsame. unfold redeem. step_db.
    destruct (students db !! sid); [|done].
    destruct (c <=? 0); [done|].
    by destruct (_ <? c).
  - apply Hsame. apply ensure_monthly_reset_endorsements.
  - unfold run_monthly_reset_for_all_students, bind, Student_query_all, read.
    apply (reset_loop_preserves _ unique_endorsements); [|done].
    intros j k db0 H0. unfold unique_endorsements.
    by rewrite ensure_monthly_reset_endorsements.
Qed.

Lemma unique_endorsements_reachable ops db :
  unique_endorsements db → unique_endorsements (commit_all ops db).
Proof.
  revert db. induction ops as [|op ops IH]; intros db Hdb; simpl; [done|].
  apply IH. by apply commit_unique_endorsements.
Qed.

(** * Further properties of the service layer *)

(** ** Every call is a sequence of committed changes *)

Lemma endorse_cases now rid eid db :
  (∃ e, endorse now rid eid db = (db, Raises e))
  ∨ (∃ rec st, recognitions db !! rid = Some rec
               ∧ students db !! eid = Some st
               ∧ ¬ endorsed_by db rid eid).
Proof.
  destruct (recognitions db !! rid) as [rec|] eqn:Hrec.
  2:{ left. eexists. unfold endorse. step_db. by rewrite Hrec. }
  destruct (students db !! eid) as [st|] eqn:Hst.
  2:{ left. eexists. unfold endorse. step_db. by rewrite Hrec, Hst. }
  destruct (endorsed_by_dec db rid eid) as [Hdup|Hnew].
  - left. eexists. by apply (endorse_duplicate _ _ _ _ rec st).
  - right. by exists rec, st.
Qed.

Lemma redeem_cases now student_id credits_to_redeem db :
  (∃ e, redeem now student_id credits_to_redeem db = (db, Raises e))
  ∨ (∃ s, students db !! student_id = Some s
          ∧ 0 < credits_to_redeem
          ∧ credits_to_redeem ≤ current_balance s).
Proof.
  unfold redeem. step_db.
  destruct (students db !! student_id) as [s|]; [|left; by eexists].
  destruct (Z.leb_spec credits_to_redeem 0); [left; by eexists|].
  destruct (Z.ltb_spec (current_balance s) credits_to_redeem);
    [left; by eexists|].
  right. by exists s.
Qed.

Section Transitions.
Variable ok : Z → Prop.

Lemma create_recognition_transition now sender_id receiver_id credits message db :
  ok credits →
  rtc (transition ok) db
    (create_recognition now sender_id receiver_id credits message db).1.
Proof.
  intros Hok.
  destruct (create_recognition_cases now sender_id receiver_id credits
              message db)
    as [(e & -> & _) | (s & r & Hs & Hr & Hne & Hbal & Hmon)]; [done|].
  rewrite (create_recognition_commits _ _ _ _ _ _ s r) by done.
  apply rtc_once. by eapply transition_transfer.
Qed.

Lemma endorse_transition now rid eid db :
  rtc (transition ok) db (endorse now rid eid db).1.
Proof.
  destruct (endorse_cases now rid eid db)
    as [(e & ->) | (rec & st & Hrec & Hst & Hnew)]; [done|].
  rewrite (endorse_commits _ _ _ _ rec st) by done.
  apply rtc_once. by eapply transition_endorse.
Qed.

Lemma redeem_transition now student_id credits_to_redeem db :
  rtc (transition ok) db (redeem now student_id credits_to_redeem db).1.
Proof.
  destruct (redeem_cases now student_id credits_to_redeem db)
    as [(e & ->) | (s & Hs & Hpos & Hle)]; [done|].
  rewrite (redeem_commits _ _ _ _ s) by done.
  apply rtc_once. by eapply transition_redeem.
Qed.

Lemma ensure_monthly_reset_transition now student db :
  rtc (transition ok) db (ensure_monthly_reset now student db).1.
Proof.
  destruct (students db !! student) as [s|] eqn:Hs.
  - rewrite (ensure_monthly_reset_run _ _ _ s) by done.
    destruct (needs_reset now s) eqn:Hneed; [|done].
    apply rtc_once. by eapply transition_reset.
  - unfold ensure_monthly_reset. step_db. by rewrite Hs.
Qed.

Lemma commit_transitions op db :
  amount_ok ok op → rtc (transition ok) db (commit op db).
Proof.
  intros Hok.
  destruct op as [now sid rid c msg | now rid eid | now sid c | now sid | clock];
    simpl in *.
  - by apply create_recognition_transition.
  - apply endorse_transition.
  - apply redeem_transition.
  - apply ensure_monthly_reset_transition.
  - unfold run_monthly_reset_for_all_students, bind, Student_query_all, read.
    apply (reset_loop_preserves _ (rtc (transition ok) db)); [|done].
    intros j k db0 H0. etrans; [exact H0|].
    apply ensure_monthly_reset_transition.
Qed.

Lemma commit_all_transitions ops db :
  Forall (amount_ok ok) ops → rtc (transition ok) db (commit_all ops db).
Proof.
  intros Hops. revert db.
  induction Hops as [|op ops Hop Hops IH]; intros db; simpl; [done|].
  etrans; [by apply commit_transitions|]. apply IH.
Qed.

(** A property kept by every committed change is kept by every sequence of
    calls. *)
Lemma invariant_commit_all (P : Store → Prop) ops db :
  (∀ d d', P d → transition ok d d' → P d') →
  P db → Forall (amount_ok ok) ops → P (commit_all ops db).
Proof.
  intros Hstep Hdb Hops.
  pose proof (commit_all_transitions ops db Hops) as Hrtc.
  induction Hrtc as [|d1 d2 d3 H12 H23 IH]; [done|].
  apply IH. by eapply Hstep.
Qed.

(** The same for a relation between the database before and after. *)
Lemma relation_commit_all (R : relation Store) `{!PreOrder R} ops db :
  (∀ d d', transition ok d d' → R d d') →
  Forall (amount_ok ok) ops → R db (commit_all ops db).
Proof.
  intros Hstep Hops.
  pose proof (commit_all_transitions ops db Hops) as Hrtc.
  induction Hrtc as [|d1 d2 d3 H12 H23 IH]; [done|].
  etrans; [by apply Hstep|done].
Qed.
End Transitions.

Lemma any_amount_ok ops : Forall (amount_ok any_amount) ops.
Proof. apply Forall_forall. intros op _. by destruct op. Qed.

Lemma positive_amount_ok ops :
  Forall positive_amount ops → Forall (amount_ok positive) ops.
Proof.
  intros Hops. eapply Forall_impl; [exact Hops|].
  intros op Hop. by destruct op.
Qed.

(** ** The monthly counter *)

Lemma reset_row_performed now s :
  needs_reset now s = true →
  reset_row now s =
    mkStudent (name s) (100 + Z.min 50 (current_balance s))
      (credits_received_total s) 0 (Some now).
Proof. intros H. unfold reset_row. by rewrite H. Qed.

Lemma monthly_within_limit_transition ok d d' :
  monthly_within_limit d → transition ok d d' → monthly_within_limit d'.
Proof.
  intros Hinv Ht k s0.
  destruct Ht as [now sid rid c msg s r Hs Hr Hne Hbal Hmon Hok
                 | now rid eid rec st Hrec Hst Hnew
                 | now sid c s Hs Hpos Hle
                 | now sid s Hs Hneed]; simpl.
  - destruct (decide (k = sid)) as [->|Hks].
    { rewrite (transferred_sender _ _ _ _ s) by done. intros [= <-]. simpl. lia. }
    destruct (decide (k = rid)) as [->|Hkr].
    { rewrite (transferred_receiver _ _ _ _ r) by done. intros [= <-]. simpl.
      by apply (Hinv rid). }
    rewrite transferred_other by done. apply Hinv.
  - apply Hinv.
  - rewrite lookup_alter. case_decide; [|apply Hinv].
    subst k. rewrite Hs. intros [= <-]. simpl. by apply (Hinv sid).
  - rewrite lookup_insert. case_decide; [|apply Hinv].
    intros [= <-]. rewrite reset_row_performed by done. simpl. lia.
Qed.

(** X1: whatever amounts the calls are given, a sequence of calls of the
    five operations never takes a student's monthly counter above 100 when
    no counter was above 100 before. *)
Theorem monthly_limit_never_exceeded ops db :
  monthly_within_limit db →
  monthly_within_limit (commit_all ops db).
Proof.
  intros Hinv.
  apply (invariant_commit_all any_amount); [|done|apply any_amount_ok].
  intros d d'. apply monthly_within_limit_transition.
Qed.

Lemma two_students_monthly_within_limit : monthly_within_limit two_students.
Proof.
  intros sid s. unfold two_students. simpl.
  rewrite !lookup_insert. repeat case_decide; try done;
    intros [= <-]; simpl; lia.
Qed.

Lemma monthly_limit_never_exceeded_witness :
  monthly_within_limit
    (commit_all [CreateRecognition t0 1 2 60 None;
                 CreateRecognition t0 1 2 (-7) None;
                 CreateRecognition t0 1 2 45 None] two_students).
Proof.
  apply (monthly_limit_never_exceeded
           [CreateRecognition t0 1 2 60 None;
            CreateRecognition t0 1 2 (-7) None;
            CreateRecognition t0 1 2 45 None] two_students).
  apply two_students_monthly_within_limit.
Defined.

Lemma monthly_nonneg_transition d d' :
  monthly_nonneg d → transition positive d d' → monthly_nonneg d'.
Proof.
  intros Hinv Ht k s0.
  destruct Ht as [now sid rid c msg s r Hs Hr Hne Hbal Hmon Hok
                 | now rid eid rec st Hrec Hst Hnew
                 | now sid c s Hs Hpos Hle
                 | now sid s Hs Hneed]; simpl.
  - unfold positive in Hok.
    destruct (decide (k = sid)) as [->|Hks].
    { rewrite (transferred_sender _ _ _ _ s) by done. intros [= <-]. simpl.
      specialize (Hinv sid s Hs). lia. }
    destruct (decide (k = rid)) as [->|Hkr].
    { rewrite (transferred_receiver _ _ _ _ r) by done. intros [= <-]. simpl.
      by apply (Hinv rid). }
    rewrite transferred_other by done. apply Hinv.
  - apply Hinv.
  - rewrite lookup_alter. case_decide; [|apply Hinv].
    subst k. rewrite Hs. intros [= <-]. simpl. by apply (Hinv sid).
  - rewrite lookup_insert. case_decide; [|apply Hinv].
    intros [= <-]. rewrite reset_row_performed by done. simpl. lia.
Qed.

(** X2: when every transfer is given a positive amount, a sequence of calls
    never makes a monthly counter negative. *)
Theorem monthly_counter_never_negative ops db :
  monthly_nonneg db →
  Forall (amount_ok positive) ops →
  monthly_nonneg (commit_all ops db).
Proof.
  intros Hinv Hpos.
  apply (invariant_commit_all positive); [|done..].
  intros d d'. apply monthly_nonneg_transition.
Qed.

Lemma monthly_counter_never_negative_witness :
  monthly_nonneg
    (commit_all [CreateRecognition t0 1 2 60 None; Redeem t0 2 (-4);
                 RunMonthlyResetForAllStudents (λ _, t0)] two_students).
Proof.
  apply (monthly_counter_never_negative
           [CreateRecognition t0 1 2 60 None; Redeem t0 2 (-4);
            RunMonthlyResetForAllStudents (λ _, t0)] two_students).
  - intros sid s. unfold two_students. simpl.
    rewrite !lookup_insert. repeat case_decide; try done;
      intros [= <-]; simpl; lia.
  - repeat constructor; unfold positive; lia.
Defined.

(** ** Rows are never changed or removed *)

Global Instance extends_preorder : PreOrder extends.
Proof.
  split.
  - intros db. unfold extends. repeat split; auto.
  - intros d1 d2 d3 (H1 & H2 & H3 & H4 & H5) (G1 & G2 & G3 & G4 & G5).
    unfold extends. split; [|split; [|split; [|split]]].
    + intros k r Hk. by apply G1, H1.
    + intros k r Hk. by apply G2, H2.
    + intros k r Hk. by apply G3, H3.
    + intros k r Hk. by apply G4, H4.
    + intros sid. by rewrite G5.
Qed.

Lemma extends_transition ok d d' : transition ok d d' → extends d d'.
Proof.
  intros Ht.
  destruct Ht as [now sid rid c msg s r Hs Hr Hne Hbal Hmon Hok
                 | now rid eid rec st Hrec Hst Hnew
                 | now sid c s Hs Hpos Hle
                 | now sid s Hs Hneed];
    unfold extends; simpl; repeat split; try done.
  - intros k r0 Hk. rewrite lookup_insert_ne; [done|].
    intros <-. by rewrite next_id_fresh in Hk.
  - intros k. destruct (decide (k = sid)) as [->|Hks].
    { by rewrite (transferred_sender _ _ _ _ s), Hs. }
    destruct (decide (k = rid)) as [->|Hkr].
    { by rewrite (transferred_receiver _ _ _ _ r), Hr. }
    by rewrite transferred_other.
  - intros k e Hk. rewrite lookup_insert_ne; [done|].
    intros <-. by rewrite next_id_fresh in Hk.
  - intros k r0 Hk. rewrite lookup_insert_ne; [done|].
    intros <-. by rewrite next_id_fresh in Hk.
  - intros k. rewrite lookup_alter. case_decide; [|done].
    subst k. by rewrite Hs.
  - intros k l Hk. rewrite lookup_insert_ne; [done|].
    intros <-. by rewrite next_id_fresh in Hk.
  - intros k. rewrite lookup_insert. case_decide; [|done].
    subst k. rewrite Hs. simpl. by rewrite reset_row_performed.
Qed.

(** X3: no sequence of calls changes or removes a stored recognition,
    endorsement, redemption or reset log, adds or removes a student, or
    changes a student's name. *)
Theorem records_are_immutable ops db :
  extends db (commit_all ops db).
Proof.
  apply (relation_commit_all any_amount extends); [|apply any_amount_ok].
  intros d d'. apply extends_transition.
Qed.

(** ** The lifetime total never shrinks *)

Global Instance totals_grow_preorder : PreOrder totals_grow.
Proof.
  split.
  - intros db sid s Hs. by exists s.
  - intros d1 d2 d3 H12 H23 sid s Hs.
    destruct (H12 sid s Hs) as (s2 & Hs2 & Hle2).
    destruct (H23 sid s2 Hs2) as (s3 & Hs3 & Hle3).
    exists s3. split; [done|lia].
Qed.




(** ** References between the tables *)

Lemma students_kept ok d d' sid :
  transition ok d d' →
  is_Some (students d !! sid) → is_Some (students d' !! sid).
Proof.
  intros Ht Hsid. destruct (extends_transition ok d d' Ht) as (_ & _ & _ & _ & Hn).
  specialize (Hn sid). destruct Hsid as [s Hs]. rewrite Hs in Hn.
  destruct (students d' !! sid); [done|discriminate].
Qed.

Lemma references_valid_transition ok d d' :
  references_valid d → transition ok d d' → references_valid d'.
Proof.
  intros (Hrec & Hend & Hred & Hlog) Ht.
  pose proof (λ sid, students_kept ok d d' sid Ht) as Hkeep.
  destruct Ht as [now sid rid c msg s r Hs Hr Hne Hbal Hmon Hok
                 | now rid eid rec st Hrec' Hst Hnew
                 | now sid c s Hs Hpos Hle
                 | now sid s Hs Hneed];
    unfold references_valid; simpl in *.
  - split; [|split; [|split]].
    + intros k r0. rewrite lookup_insert. case_decide.
      * intros [= <-]. simpl. split; [|split; [|done]]; apply Hkeep; by eexists.
      * intros Hk. destruct (Hrec k r0 Hk) as (H1 & H2 & H3). auto.
    + intros k e Hk. destruct (Hend k e Hk) as [[r0 Hr0] H2]. split; [|auto].
      exists r0. rewrite lookup_insert_ne; [done|].
      intros Heq. rewrite <- Heq in Hr0. by rewrite next_id_fresh in Hr0.
    + intros k r0 Hk. apply Hkeep. by eapply Hred.
    + intros k l Hk. apply Hkeep. by eapply Hlog.
  - split; [|split; [|split]]; try done.
    intros k e. rewrite lookup_insert. case_decide.
    + intros [= <-]. simpl. split; by eexists.
    + apply Hend.
  - split; [|split; [|split]].
    + intros k r0 Hk. destruct (Hrec k r0 Hk) as (H1 & H2 & H3). auto.
    + intros k e Hk. destruct (Hend k e Hk) as [H1 H2]. auto.
    + intros k r0. rewrite lookup_insert. case_decide.
      * intros [= <-]. simpl. apply Hkeep. by eexists.
      * intros Hk. apply Hkeep. by eapply Hred.
    + intros k l Hk. apply Hkeep. by eapply Hlog.
  - split; [|split; [|split]].
    + intros k r0 Hk. destruct (Hrec k r0 Hk) as (H1 & H2 & H3). auto.
    + intros k e Hk. destruct (Hend k e Hk) as [H1 H2]. auto.
    + intros k r0 Hk. apply Hkeep. by eapply Hred.
    + intros k l. rewrite lookup_insert. case_decide.
      * intros [= <-]. simpl. apply Hkeep. by eexists.
      * intros Hk. apply Hkeep. by eapply Hlog.
Qed.

(** X5: a sequence of calls never stores a row that points to a missing
    row: the sender and the receiver of every recognition exist and differ,
    the recognition and the endorser of every endorsement exist, and so do
    the students of every redemption and of every reset log. *)
Theorem references_stay_valid ops db :
  references_valid db →
  references_valid (commit_all ops db).
Proof.
  intros Hinv.
  apply (invariant_commit_all any_amount); [|done|apply any_amount_ok].
  intros d d'. apply references_valid_transition.
Qed.

Lemma two_students_references_valid : references_valid two_students.
Proof.
  unfold references_valid, two_students. simpl.
  split; [|split; [|split]]; intros k x Hk; by rewrite lookup_empty in Hk.
Qed.

Lemma references_stay_valid_witness :
  references_valid
    (commit_all [CreateRecognition t0 1 2 60 None; Endorse t0 1 2;
                 Redeem t0 2 30; EnsureMonthlyReset t0 1] two_students).
Proof.
  apply (references_stay_valid
           [CreateRecognition t0 1 2 60 None; Endorse t0 1 2;
            Redeem t0 2 30; EnsureMonthlyReset t0 1] two_students).
  apply two_students_references_valid.
Defined.

(** ** Redemption rows *)

Lemma redemptions_wellformed_transition ok d d' :
  redemptions_wellformed d → transition ok d d' → redemptions_wellformed d'.
Proof.
  intros Hinv Ht.
  destruct Ht as [now sid rid c msg s r Hs Hr Hne Hbal Hmon Hok
                 | now rid eid rec st Hrec Hst Hnew
                 | now sid c s Hs Hpos Hle
                 | now sid s Hs Hneed];
    unfold redemptions_wellformed; simpl; try done.
  intros k r0. rewrite lookup_insert. case_decide.
  - intros [= <-]. simpl. lia.
  - apply Hinv.
Qed.

(** X6: every redemption a sequence of calls stores is for a positive
    number of credits and has a voucher value of five times that number. *)
Theorem redemptions_stay_wellformed ops db :
  redemptions_wellformed db →
  redemptions_wellformed (commit_all ops db).
Proof.
  intros Hinv.
  apply (invariant_commit_all any_amount); [|done|apply any_amount_ok].
  intros d d'. apply redemptions_wellformed_transition.
Qed.

Lemma redemptions_stay_wellformed_witness :
  redemptions_wellformed
    (commit_all [Redeem t0 2 30; Redeem t0 2 0; Redeem t0 1 (-5);
                 Redeem t0 1 100] two_students).
Proof.
  apply (redemptions_stay_wellformed
           [Redeem t0 2 30; Redeem t0 2 0; Redeem t0 1 (-5); Redeem t0 1 100]
           two_students).
  intros k r Hk. simpl in Hk. by rewrite lookup_empty in Hk.
Defined.

(** ** Reset logs *)

Lemma alter_last_credit_reset (f : Student → Student) j (t : gmap Z Student) k s :
  (∀ x, last_credit_reset (f x) = last_credit_reset x) →
  t !! k = Some s →
  ∃ s', alter f j t !! k = Some s'
        ∧ last_credit_reset s' = last_credit_reset s.
Proof.
  intros Hf Hk. destruct (decide (j = k)) as [->|Hne].
  - rewrite lookup_alter_eq, Hk. simpl. by eexists.
  - rewrite lookup_alter_ne by done. by exists s.
Qed.

Lemma transferred_last_credit_reset sender_id receiver_id credits t k s :
  t !! k = Some s →
  ∃ s', transferred sender_id receiver_id credits t !! k = Some s'
        ∧ last_credit_reset s' = last_credit_reset s.
Proof.
  intros Hk. unfold transferred.
  eapply (alter_last_credit_reset
            (λ s, set_current_balance (current_balance s - credits) s)
            sender_id) in Hk as (s1 & Hk & H1); [|done].
  eapply (alter_last_credit_reset
            (λ s, set_monthly_sent_this_month
                    (monthly_sent_this_month s + credits) s)
            sender_id) in Hk as (s2 & Hk & H2); [|done].
  eapply (alter_last_credit_reset
            (λ s, set_current_balance (current_balance s + credits) s)
            receiver_id) in Hk as (s3 & Hk & H3); [|done].
  eapply (alter_last_credit_reset
            (λ s, set_credits_received_total
                    (credits_received_total s + credits) s)
            receiver_id) in Hk as (s4 & Hk & H4); [|done].
  exists s4. split; [exact Hk|]. congruence.
Qed.

Lemma log_not_after_earlier l last now :
  log_not_after l last → earlier_month last now →
  log_not_after l now
  ∧ ¬ (log_year l = year now ∧ log_month l = month now).
Proof. unfold log_not_after, earlier_month. lia. Qed.

Lemma reset_logs_consistent_transition ok d d' :
  reset_logs_consistent d → transition ok d d' → reset_logs_consistent d'.
Proof.
  intros [Hlogs Huniq] Ht.
  destruct Ht as [now sid rid c msg s r Hs Hr Hne Hbal Hmon Hok
                 | now rid eid rec st Hrec Hst Hnew
                 | now sid c s Hs Hpos Hle
                 | now sid s Hs Hneed];
    unfold reset_logs_consistent; simpl.
  - split; [|done]. intros k l Hk.
    destruct (Hlogs k l Hk) as (Hcf & s0 & last & Hs0 & Hlast & Hna).
    split; [done|].
    destruct (transferred_last_credit_reset sid rid c _ _ _ Hs0)
      as (s' & Hs' & Hl').
    exists s', last. by rewrite Hs', Hl'.
  - done.
  - split; [|done]. intros k l Hk.
    destruct (Hlogs k l Hk) as (Hcf & s0 & last & Hs0 & Hlast & Hna).
    split; [done|].
    destruct (alter_last_credit_reset
                (λ s, set_current_balance (current_balance s - c) s)
                sid _ _ _ (λ _, eq_refl) Hs0) as (s' & Hs' & Hl').
    exists s', last. by rewrite Hs', Hl'.
  - assert (∀ k l, monthly_reset_logs d !! k = Some l →
                   log_student_id l = sid →
                   log_not_after l now
                   ∧ ¬ (log_year l = year now ∧ log_month l = month now))
      as Hold.
    { intros k l Hk Hl.
      destruct (Hlogs k l Hk) as (_ & s0 & last & Hs0 & Hlast & Hna).
      rewrite Hl, Hs in Hs0. injection Hs0 as <-.
      apply (log_not_after_earlier l last now); [done|].
      apply needs_reset_iff in Hneed as [Hnone | (last' & Hlast' & Hearlier)].
      - congruence.
      - congruence. }
    split.
    + intros k l. rewrite lookup_insert. case_decide.
      * intros [= <-]. simpl. split; [lia|].
        rewrite lookup_insert_eq. eexists _, now. split; [done|].
        rewrite reset_row_performed by done. simpl. split; [done|].
        unfold log_not_after. simpl. lia.
      * intros Hk.
        destruct (Hlogs k l Hk) as (Hcf & s0 & last & Hs0 & Hlast & Hna).
        split; [done|]. rewrite lookup_insert. case_decide.
        -- eexists _, now. split; [done|].
           rewrite reset_row_performed by done. simpl. split; [done|].
           by apply (Hold k l Hk).
        -- by exists s0, last.
    + intros k1 k2 l1 l2. rewrite !lookup_insert.
      repeat case_decide; subst.
      * done.
      * intros [= <-] H2 Hst Hy Hm. simpl in *.
        destruct (Hold k2 l2 H2) as [_ Hdiff]; [done|]. by destruct Hdiff.
      * intros H1 [= <-] Hst Hy Hm. simpl in *.
        destruct (Hold k1 l1 H1) as [_ Hdiff]; [done|]. by destruct Hdiff.
      * apply Huniq.
Qed.

(** X7: along any sequence of calls the reset logs stay consistent: there
    is at most one log per student and calendar month, no log is for a month
    after the student's last reset, and no log carries more than 50. *)
Theorem one_reset_log_per_month ops db :
  reset_logs_consistent db →
  reset_logs_consistent (commit_all ops db).
Proof.
  intros Hinv.
  apply (invariant_commit_all any_amount); [|done|apply any_amount_ok].
  intros d d'. apply reset_logs_consistent_transition.
Qed.

Lemma one_reset_log_per_month_witness :
  reset_logs_consistent
    (commit_all [RunMonthlyResetForAllStudents (λ _, t0);
                 EnsureMonthlyReset t0 1;
                 EnsureMonthlyReset (mkDatetime 2024 4 1 0 0 0 0) 1;
                 CreateRecognition t0 1 2 10 None] two_students).
Proof.
  apply (one_reset_log_per_month
           [RunMonthlyResetForAllStudents (λ _, t0);
            EnsureMonthlyReset t0 1;
            EnsureMonthlyReset (mkDatetime 2024 4 1 0 0 0 0) 1;
            CreateRecognition t0 1 2 10 None] two_students).
  split.
  - intros k l Hk. simpl in Hk. by rewrite lookup_empty in Hk.
  - intros k1 k2 l1 l2 Hk. simpl in Hk. by rewrite lookup_empty in Hk.
Defined.

(** ** Sums over a table *)

Global Instance Zsum_Permutation : Proper ((≡ₚ) ==> (=)) Zsum.
Proof.
  intros l1 l2 Hperm. unfold Zsum.
  induction Hperm as [|x l1 l2 _ IH|x y l|l1 l2 l3 _ IH1 _ IH2]; simpl.
  - done.
  - by rewrite IH.
  - lia.
  - congruence.
Qed.

Lemma Zsum_map_insert {V : Type} (f : Z * V → Z) (t : gmap Z V) k v :
  t !! k = None →
  Zsum (f <$> map_to_list (<[k := v]> t)) = f (k, v) + Zsum (f <$> map_to_list t).
Proof. intros Hk. by rewrite map_to_list_insert. Qed.

Lemma Zsum_map_replace {V : Type} (f : Z * V → Z) (t : gmap Z V) k v v' :
  t !! k = Some v →
  Zsum (f <$> map_to_list (<[k := v']> t)) =
    Zsum (f <$> map_to_list t) - f (k, v) + f (k, v').
Proof.
  intros Hk.
  rewrite <- (insert_delete_eq t), Zsum_map_insert by apply lookup_delete_eq.
  rewrite <- (map_to_list_delete t k v Hk), fmap_cons.
  unfold Zsum. simpl. lia.
Qed.

Lemma alter_as_insert {V : Type} (f : V → V) (t : gmap Z V) k v :
  t !! k = Some v → alter f k t = <[k := f v]> t.
Proof.
  intros Hk. apply map_eq. intros j.
  destruct (decide (k = j)) as [->|Hne].
  - by rewrite lookup_alter_eq, lookup_insert_eq, Hk.
  - by rewrite lookup_alter_ne, lookup_insert_ne.
Qed.

(** ** The lifetime total is the sum of the recognitions received *)

Lemma received_sum_insert db sid k rec :
  recognitions db !! k = None →
  received_sum (with_recognitions (insert k rec) db) sid =
    (if decide (receiver_id rec = sid) then credits rec else 0)
    + received_sum db sid.
Proof.
  intros Hk. unfold received_sum, recognitions_received. simpl.
  rewrite map_filter_insert. simpl. case_decide.
  - rewrite Zsum_map_insert; [done|].
    apply map_lookup_filter_None. by left.
  - by rewrite delete_id.
Qed.

Lemma totals_match_transition ok d d' :
  totals_match d → transition ok d d' → totals_match d'.
Proof.
  intros Hinv Ht k s0.
  destruct Ht as [now sid rid c msg s r Hs Hr Hne Hbal Hmon Hok
                 | now rid eid rec st Hrec Hst Hnew
                 | now sid c s Hs Hpos Hle
                 | now sid s Hs Hneed].
  - rewrite received_sum_insert by apply next_id_fresh. simpl.
    change (received_sum (with_students (transferred sid rid c) d) k)
      with (received_sum d k).
    destruct (decide (k = sid)) as [->|Hks].
    { rewrite (transferred_sender _ _ _ _ s) by done. intros [= <-]. simpl.
      rewrite decide_False by done. rewrite (Hinv sid s Hs). lia. }
    destruct (decide (k = rid)) as [->|Hkr].
    { rewrite (transferred_receiver _ _ _ _ r) by done. intros [= <-]. simpl.
      rewrite decide_True by done. rewrite (Hinv rid r Hr). lia. }
    rewrite transferred_other by done. intros Hk.
    rewrite decide_False by done. rewrite (Hinv k s0 Hk). lia.
  - apply Hinv.
  - simpl. rewrite lookup_alter. case_decide.
    + subst k. rewrite Hs. intros [= <-]. simpl. by apply (Hinv sid).
    + apply Hinv.
  - simpl. rewrite lookup_insert. case_decide.
    + subst k. intros [= <-]. rewrite reset_row_performed by done. simpl.
      by apply (Hinv sid).
    + apply Hinv.
Qed.

(** X8: along any sequence of calls, whatever the amounts, every student's
    [credits_received_total] stays equal to the sum of the credits of the
    recognitions stored with that student as receiver. *)
Theorem received_total_matches_recognitions ops db :
  totals_match db →
  totals_match (commit_all ops db).
Proof.
  intros Hinv.
  apply (invariant_commit_all any_amount); [|done|apply any_amount_ok].
  intros d d'. apply totals_match_transition.
Qed.

Lemma two_students_totals_match : totals_match two_students.
Proof.
  intros sid s. unfold two_students. simpl.
  rewrite !lookup_insert. repeat case_decide; try done;
    intros [= <-]; reflexivity.
Qed.

Lemma received_total_matches_recognitions_witness :
  totals_match
    (commit_all [CreateRecognition t0 1 2 40 None;
                 CreateRecognition t0 2 1 15 None;
                 CreateRecognition t0 1 2 (-5) None; Redeem t0 2 20;
                 RunMonthlyResetForAllStudents (λ _, t0)] two_students).
Proof.
  apply (received_total_matches_recognitions
           [CreateRecognition t0 1 2 40 None;
            CreateRecognition t0 2 1 15 None;
            CreateRecognition t0 1 2 (-5) None; Redeem t0 2 20;
            RunMonthlyResetForAllStudents (λ _, t0)] two_students).
  apply two_students_totals_match.
Defined.

(** ** Credits in circulation *)

Lemma total_balance_alter db k (f : Student → Student) s :
  students db !! k = Some s →
  total_balance (with_students (alter f k) db) =
    total_balance db - current_balance s + current_balance (f s).
Proof.
  intros Hk. unfold total_balance. simpl.
  rewrite (alter_as_insert f _ k s Hk).
  by rewrite (Zsum_map_replace _ _ k s (f s) Hk).
Qed.

Lemma total_balance_transferred db sender_id receiver_id credits s r :
  students db !! sender_id = Some s →
  students db !! receiver_id = Some r →
  sender_id ≠ receiver_id →
  total_balance (with_students (transferred sender_id receiver_id credits) db)
    = total_balance db.
Proof.
  intros Hs Hr Hne. unfold total_balance. simpl. unfold transferred.
  set (f1 := λ s : Student, set_current_balance (current_balance s - credits) s).
  set (f2 := λ s : Student,
               set_monthly_sent_this_month (monthly_sent_this_month s + credits) s).
  set (g1 := λ s : Student, set_current_balance (current_balance s + credits) s).
  set (g2 := λ s : Student,
               set_credits_received_total (credits_received_total s + credits) s).
  rewrite (alter_as_insert f1 (students db) sender_id s Hs).
  rewrite (alter_as_insert f2 _ sender_id (f1 s)) by apply lookup_insert_eq.
  rewrite insert_insert_eq.
  assert (<[sender_id := f2 (f1 s)]> (students db) !! receiver_id = Some r)
    as Hr' by (by rewrite lookup_insert_ne).
  rewrite (alter_as_insert g1 _ receiver_id r Hr').
  rewrite (alter_as_insert g2 _ receiver_id (g1 r)) by apply lookup_insert_eq.
  rewrite insert_insert_eq.
  rewrite (Zsum_map_replace _ _ receiver_id r (g2 (g1 r)) Hr').
  rewrite (Zsum_map_replace _ _ sender_id s (f2 (f1 s)) Hs).
  simpl. lia.
Qed.

(** X9: a call of [create_recognition], whatever its arguments and its
    outcome, leaves the sum of all balances as it was, and so does a call of
    [endorse]; a call of [redeem] lowers the sum by exactly the credits of
    the redemption it returns and leaves it as it was when it raises. *)
Theorem credits_in_circulation now db :
  (∀ sender_id receiver_id credits message,
     total_balance
       (create_recognition now sender_id receiver_id credits message db).1
     = total_balance db)
  ∧ (∀ recognition_id endorser_id,
       total_balance (endorse now recognition_id endorser_id db).1
       = total_balance db)
  ∧ (∀ student_id credits_to_redeem,
       total_balance (redeem now student_id credits_to_redeem db).1
       = total_balance db
         - match (redeem now student_id credits_to_redeem db).2 with
           | Returns r => credits_redeemed r.2
           | Raises _ => 0
           end).
Proof.
  split; [|split].
  - intros sender_id receiver_id credits message.
    destruct (create_recognition_cases now sender_id receiver_id credits
                message db)
      as [(e & -> & _) | (s & r & Hs & Hr & Hne & Hbal & Hmon)]; [done|].
    rewrite (create_recognition_commits _ _ _ _ _ _ s r) by done. simpl.
    change (total_balance (with_recognitions ?f ?d)) with (total_balance d).
    by apply (total_balance_transferred _ _ _ _ s r).
  - intros recognition_id endorser_id.
    unfold total_balance. by rewrite endorse_students.
  - intros student_id credits_to_redeem.
    destruct (redeem_cases now student_id credits_to_redeem db)
      as [(e & ->) | (s & Hs & Hpos & Hle)]; [simpl; lia|].
    rewrite (redeem_commits _ _ _ _ s) by done. simpl.
    change (total_balance (with_redemptions ?f ?d)) with (total_balance d).
    rewrite (total_balance_alter _ _ _ s Hs). simpl. lia.
Qed.

Example credits_in_circulation_scenario :
  total_balance two_students = 200
  ∧ total_balance (commit_all [CreateRecognition t0 1 2 30 None] two_students)
    = 200
  ∧ total_balance scenario_store = 150.
Proof. vm_compute. done. Qed.

(** ** The cut of the leaderboard *)

Lemma leaderboard_run limit db :
  0 ≤ limit →
  leaderboard limit db =
    (db, Returns (take (Z.to_nat limit)
                    (merge_sort ranks_before
                       (leaderboard_row db <$> map_to_list (students db))))).
Proof.
  intros Hlimit. unfold leaderboard, read, sql_limit.
  destruct (Z.ltb_spec limit 0); [lia|].
  rewrite (list_fmap_ext to_dict id) by (intros; apply to_dict_id).
  by rewrite list_fmap_id.
Qed.

Lemma ranking_elem db e :
  e ∈ merge_sort ranks_before (leaderboard_row db <$> map_to_list (students db))
  ↔ ∃ sid s, students db !! sid = Some s ∧ e = leaderboard_row db (sid, s).
Proof.
  rewrite merge_sort_Permutation, list_elem_of_fmap. split.
  - intros ([sid s] & -> & Hin). apply elem_of_map_to_list in Hin.
    by exists sid, s.
  - intros (sid & s & Hs & ->). exists (sid, s). split; [done|].
    by apply elem_of_map_to_list.
Qed.

(** X10: for a limit that is not negative, [leaderboard] leaves the database
    alone and returns as many entries as the limit allows and there are
    students; no student appears twice, every entry is a student of the
    table, and every student that is left out ranks behind every student
    that is listed. *)
Theorem leaderboard_keeps_the_best limit db :
  0 ≤ limit →
  ∃ entries,
    leaderboard limit db = (db, Returns entries)
    ∧ length entries = Nat.min (Z.to_nat limit) (size (students db))
    ∧ NoDup (lb_student_id <$> entries)
    ∧ (∀ e, e ∈ entries → is_Some (students db !! lb_student_id e))
    ∧ (∀ sid s e,
         students db !! sid = Some s →
         sid ∉ lb_student_id <$> entries →
         e ∈ entries →
         credits_received_total s < lb_credits_received_total e
         ∨ (credits_received_total s = lb_credits_received_total e
            ∧ lb_student_id e < sid)).
Proof.
  intros Hlimit. eexists. split; [by apply leaderboard_run|].
  set (ranking := merge_sort ranks_before
                    (leaderboard_row db <$> map_to_list (students db))).
  set (n := Z.to_nat limit).
  assert (NoDup (lb_student_id <$> take n ranking)) as Hnd.
  { pose proof (ranking_ids_NoDup db) as Hall. fold ranking in Hall.
    rewrite <- (take_drop n ranking), fmap_app in Hall.
    by apply NoDup_app in Hall as [? _]. }
  split; [|split; [done|split]].
  - rewrite length_take. f_equal. unfold ranking.
    rewrite merge_sort_Permutation, length_fmap. apply length_map_to_list.
  - intros e He.
    assert (e ∈ ranking) as Hin.
    { apply elem_of_take in He as (i & Hi & _).
      by eapply list_elem_of_lookup_2. }
    apply ranking_elem in Hin as (sid & s & Hs & ->). simpl. by exists s.
  - intros sid s e Hs Hout He.
    assert (leaderboard_row db (sid, s) ∈ ranking) as Hin.
    { apply ranking_elem. by exists sid, s. }
    rewrite <- (take_drop n ranking) in Hin.
    apply elem_of_app in Hin as [Hin|Hin].
    { exfalso. apply Hout. apply list_elem_of_fmap.
      by exists (leaderboard_row db (sid, s)). }
    pose proof (ranking_sorted db) as Hsorted. fold ranking in Hsorted.
    rewrite <- (take_drop n ranking) in Hsorted.
    pose proof (StronglySorted_app_1_elem_of _ _ _ _ _ Hsorted He Hin) as Hrank.
    unfold ranks_before in Hrank. simpl in Hrank.
    assert (lb_student_id e ≠ sid); [|lia].
    intros <-. apply Hout. apply list_elem_of_fmap. by exists e.
Qed.

Lemma leaderboard_keeps_the_best_witness :
  ∃ entries,
    leaderboard 1 scenario_store = (scenario_store, Returns entries)
    ∧ length entries = Nat.min (Z.to_nat 1) (size (students scenario_store))
    ∧ NoDup (lb_student_id <$> entries)
    ∧ (∀ e, e ∈ entries → is_Some (students scenario_store !! lb_student_id e))
    ∧ (∀ sid s e,
         students scenario_store !! sid = Some s →
         sid ∉ lb_student_id <$> entries →
         e ∈ entries →
         credits_received_total s < lb_credits_received_total e
         ∨ (credits_received_total s = lb_credits_received_total e
            ∧ lb_student_id e < sid)).
Proof. apply (leaderboard_keeps_the_best 1 scenario_store). lia. Defined.

(** ** The ledger behind the endpoints *)

Lemma serve_cases req db :
  serve req db = db
  ∨ ∃ op, positive_amount op ∧ serve req db = commit op db.
Proof.
  destruct req as [now sid rid c msg | now rid eid | now sid c | limit | clock];
    simpl.
  - unfold create_recognition_endpoint.
    destruct (Z.leb_spec c 0) as [Hle|Hpos]; [by left|].
    right. exists (CreateRecognition now sid rid c msg). split; [done|]. simpl.
    by destruct (create_recognition now sid rid c msg db) as [db' [r|e]].
  - right. exists (Endorse now rid eid). split; [done|]. simpl.
    unfold endorse_recognition.
    by destruct (endorse now rid eid db) as [db' [r|e]].
  - unfold redeem_credits.
    destruct (Z.leb_spec c 0) as [Hle|Hpos]; [by left|].
    right. exists (Redeem now sid c). split; [done|]. simpl.
    by destruct (redeem now sid c db) as [db' [r|e]].
  - left. unfold get_leaderboard. destruct (limit <=? 0); [done|].
    by unfold leaderboard, read.
  - right. exists (RunMonthlyResetForAllStudents clock). split; [done|]. simpl.
    unfold run_monthly_reset.
    by destruct (run_monthly_reset_for_all_students clock db) as [db' [r|e]].
Qed.

Lemma serve_all_commit_all reqs db :
  ∃ ops, Forall positive_amount ops ∧ serve_all reqs db = commit_all ops db.
Proof.
  revert db. induction reqs as [|req reqs IH]; intros db; simpl.
  - by exists [].
  - destruct (serve_cases req db) as [-> | (op & Hop & ->)].
    + apply IH.
    + destruct (IH (commit op db)) as (ops & Hops & ->).
      exists (op :: ops). split; [by constructor|done].
Qed.

(** X11: whatever integers the requests carry, serving a sequence of
    requests to the recognition, endorsement, redemption, leaderboard and
    reset endpoints keeps every balance at 0 or more and every monthly
    counter between 0 and 100, once that is so. *)
Theorem endpoints_keep_the_ledger_sound reqs db :
  balances_nonneg db →
  monthly_nonneg db →
  monthly_within_limit db →
  balances_nonneg (serve_all reqs db)
  ∧ monthly_nonneg (serve_all reqs db)
  ∧ monthly_within_limit (serve_all reqs db).
Proof.
  intros Hbal Hmon Hlim.
  destruct (serve_all_commit_all reqs db) as (ops & Hops & ->).
  split; [|split].
  - revert db Hbal Hmon Hlim.
    induction Hops as [|op ops Hop Hops IH]; intros db Hbal Hmon Hlim; [done|].
    simpl. apply IH.
    + by apply commit_nonneg.
    + apply (invariant_commit_all positive monthly_nonneg [op]);
        [apply monthly_nonneg_transition|done|].
      apply positive_amount_ok. by constructor.
    + apply (invariant_commit_all any_amount monthly_within_limit [op]);
        [apply monthly_within_limit_transition|done|apply any_amount_ok].
  - apply (invariant_commit_all positive); [|done|by apply positive_amount_ok].
    apply monthly_nonneg_transition.
  - apply (invariant_commit_all any_amount); [|done|apply any_amount_ok].
    apply monthly_within_limit_transition.
Qed.

Lemma two_students_balances_nonneg : balances_nonneg two_students.
Proof.
  intros sid s. unfold two_students. simpl.
  rewrite !lookup_insert. repeat case_decide; try done;
    intros [= <-]; simpl; lia.
Qed.

Lemma two_students_monthly_nonneg : monthly_nonneg two_students.
Proof.
  intros sid s. unfold two_students. simpl.
  rewrite !lookup_insert. repeat case_decide; try done;
    intros [= <-]; simpl; lia.
Qed.

Lemma endpoints_keep_the_ledger_sound_witness :
  balances_nonneg
    (serve_all [PostRecognitions t0 1 2 (-5) None; PostRecognitions t0 1 2 70 None;
                PostRedeem t0 2 (-10); PostRedeem t0 2 500;
                GetRunMonthlyReset (λ _, t0); GetLeaderboard 0] two_students)
  ∧ monthly_nonneg
      (serve_all [PostRecognitions t0 1 2 (-5) None; PostRecognitions t0 1 2 70 None;
                  PostRedeem t0 2 (-10); PostRedeem t0 2 500;
                  GetRunMonthlyReset (λ _, t0); GetLeaderboard 0] two_students)
  ∧ monthly_within_limit
      (serve_all [PostRecognitions t0 1 2 (-5) None; PostRecognitions t0 1 2 70 None;
                  PostRedeem t0 2 (-10); PostRedeem t0 2 500;
                  GetRunMonthlyReset (λ _, t0); GetLeaderboard 0] two_students).
Proof.
  apply (endpoints_keep_the_ledger_sound
           [PostRecognitions t0 1 2 (-5) None; PostRecognitions t0 1 2 70 None;
            PostRedeem t0 2 (-10); PostRedeem t0 2 500;
            GetRunMonthlyReset (λ _, t0); GetLeaderboard 0] two_students).
  - apply two_students_balances_nonneg.
  - apply two_students_monthly_nonneg.
  - apply two_students_monthly_within_limit.
Defined.


(** ** A reset renews the allowance *)

(** X13: when [ensure_monthly_reset] performs the reset of a student whose
    balance was not negative, that student can afterwards send any amount
    from 1 to 100 to any other student: the transfer is accepted. *)
Theorem reset_renews_the_allowance now now' student receiver_id credits message
    db s r :
  students db !! student = Some s →
  students db !! receiver_id = Some r →
  student ≠ receiver_id →
  0 ≤ current_balance s →
  needs_reset now s = true →
  0 < credits ≤ 100 →
  ∃ db' id,
    create_recognition now' student receiver_id credits message
      (ensure_monthly_reset now student db).1 =
      (db', Returns (id, mkRecognition student receiver_id credits message now')).
Proof.
  intros Hs Hr Hne Hbal Hneed Hc.
  eexists _, _.
  apply (create_recognition_commits _ _ _ _ _ _ (reset_row now s) r).
  - rewrite (ensure_monthly_reset_students _ _ _ s) by done.
    apply lookup_insert_eq.
  - rewrite (ensure_monthly_reset_students _ _ _ s) by done.
    by rewrite lookup_insert_ne.
  - done.
  - rewrite reset_row_performed by done. simpl. lia.
  - rewrite reset_row_performed by done. simpl. lia.
Qed.

(** A sender (key 1) who has used up the month: balance 5, 100 sent, last
    reset in February. *)
Lemma reset_renews_the_allowance_witness :
  ∃ db' id,
    create_recognition t0 1 2 100 None
      (ensure_monthly_reset t0 1
         (with_students
            (λ _, <[1 := mkStudent "A" 5 0 100
                            (Some (mkDatetime 2024 2 1 0 5 0 0))]>
                    (<[2 := new_student "B"]> ∅)) empty_store)).1 =
      (db', Returns (id, mkRecognition 1 2 100 None t0)).
Proof.
  apply (reset_renews_the_allowance t0 t0 1 2 100 None
           (with_students
              (λ _, <[1 := mkStudent "A" 5 0 100
                              (Some (mkDatetime 2024 2 1 0 5 0 0))]>
                      (<[2 := new_student "B"]> ∅)) empty_store)
           (mkStudent "A" 5 0 100 (Some (mkDatetime 2024 2 1 0 5 0 0)))
           (new_student "B")).
  - reflexivity.
  - reflexivity.
  - lia.
  - simpl. lia.
  - reflexivity.
  - lia.
Defined.
